(** * Similarity search over text embeddings

    A shallow embedding of the notebook [for_ES.ipynb]: the ingestion
    pipeline ([index_data], [index_batch]), the embedding call
    ([embed_text]) and the query pipeline ([handle_query]), together with
    a model of the Elasticsearch client the notebook talks to. *)

From Stdlib Require Import Ascii String ZArith Lia.
From stdpp Require Import gmap strings list sorting.

(** ** Python exceptions and results *)

Inductive exn : Type :=
  | JSONDecodeError          (* json.loads on a malformed line *)
  | KeyError (key : string)  (* d[key] on a dict without key *)
  | TypeError                (* subscripting something that is not a dict *)
  | IndexError               (* l[i] out of range *)
  | ZeroDivisionError        (* count % 0 *)
  | SessionError             (* session.run failed *)
  | RequestError             (* Elasticsearch answered 400 *)
  | NotFoundError            (* Elasticsearch answered 404 *)
  | BulkIndexError           (* helpers.bulk reported a failed action *)
  | KeyboardInterrupt        (* the user interrupted the kernel *)
  | EOFError.                (* input() at the end of the input *)

Inductive result (A : Type) : Type :=
  | Ok (a : A)
  | Raise (e : exn).
Arguments Ok {A} a.
Arguments Raise {A} e.

(** ** [str.strip()]

    A [string] holds a Python [str] in UTF-8.  [str.strip()] removes
    the characters [str.isspace] accepts from both ends: U+0009 to
    U+000D, U+001C to U+0020, U+0085, U+00A0, U+1680, U+2000 to U+200A,
    U+2028, U+2029, U+202F, U+205F and U+3000; the first two ranges are
    one byte long, the next two characters two bytes, the others
    three. *)

Definition is_space (a : ascii) : bool :=
  let n := nat_of_ascii a in
  ((9 <=? n) && (n <=? 13)) || ((28 <=? n) && (n <=? 32)).

Definition is_space2 (a b : ascii) : bool :=
  let m := nat_of_ascii b in
  (nat_of_ascii a =? 194) && ((m =? 133) || (m =? 160)).

Definition is_space3 (a b c : ascii) : bool :=
  let l := nat_of_ascii a in
  let m := nat_of_ascii b in
  let n := nat_of_ascii c in
  ((l =? 225) && (m =? 154) && (n =? 128))
  || ((l =? 226) && (m =? 128)
      && (((128 <=? n) && (n <=? 138))
          || (n =? 168) || (n =? 169) || (n =? 175)))
  || ((l =? 226) && (m =? 129) && (n =? 159))
  || ((l =? 227) && (m =? 128) && (n =? 128)).

(** A string that is one white-space character. *)
Definition is_space_string (s : string) : bool :=
  match s with
  | String a EmptyString => is_space a
  | String a (String b EmptyString) => is_space2 a b
  | String a (String b (String c EmptyString)) => is_space3 a b c
  | _ => false
  end.

Fixpoint lstrip (s : string) : string :=
  match s with
  | String a s1 =>
      if is_space a then lstrip s1
      else
        match s1 with
        | String b s2 =>
            if is_space2 a b then lstrip s2
            else
              match s2 with
              | String c s3 => if is_space3 a b c then lstrip s3 else s
              | EmptyString => s
              end
        | EmptyString => s
        end
  | EmptyString => EmptyString
  end.

(** From the right: what is left of the tail, with the byte before it,
    is dropped when it is one white-space character. *)
Fixpoint rstrip (s : string) : string :=
  match s with
  | String a s' =>
      let r := String a (rstrip s') in
      if is_space_string r then EmptyString else r
  | EmptyString => EmptyString
  end.

Definition strip (s : string) : string := rstrip (lstrip s).

(** ** Python values

    [num] stands for the floating-point numbers of the embedding vectors
    and of the scores; their arithmetic is not modelled. *)

#[warnings="-register-all"]
Inductive value (num : Type) : Type :=
  | VNone
  | VBool (b : bool)
  | VInt (z : Z)
  | VFloat (x : num)
  | VStr (s : string)
  | VList (vs : list (value num))
  | VDict (d : gmap string (value num)).
Arguments VNone {num}.
Arguments VBool {num} b.
Arguments VInt {num} z.
Arguments VFloat {num} x.
Arguments VStr {num} s.
Arguments VList {num} vs.
Arguments VDict {num} d.

(** ** The world: the Elasticsearch store and the calls made so far *)

(** One index of the store: the body it was created with and its
    documents, each under the id the store gave it. *)
Record es_index (num : Type) : Type := EsIndex {
  mappings : string;
  documents : list (nat * gmap string (value num))
}.
Arguments EsIndex {num} mappings documents.
Arguments mappings {num} e.
Arguments documents {num} e.

Inductive event (num : Type) : Type :=
  | indices_delete_call (index : string)
  | indices_create_call (index body : string)
  | indices_refresh_call (index : string)
  | session_run_call (text : list (value num))
  | bulk_call (requests : list (value num))
  | search_call (index : string) (size : nat)
      (params : gmap string (value num))
  | print_call (fmt : string) (args : list (value num)).
Arguments indices_delete_call {num} index.
Arguments indices_create_call {num} index body.
Arguments indices_refresh_call {num} index.
Arguments session_run_call {num} text.
Arguments bulk_call {num} requests.
Arguments search_call {num} index size params.
Arguments print_call {num} fmt args.

Record world (num : Type) : Type := World {
  es : gmap string (es_index num);
  next_id : nat;
  calls : list (event num)
}.
Arguments World {num} es next_id calls.
Arguments es {num} w.
Arguments next_id {num} w.
Arguments calls {num} w.

(** A hit of a search response and the response. *)
Record hit (num : Type) : Type := Hit {
  hit_id : nat;
  hit_score : num;
  hit_source : gmap string (value num)
}.
Arguments Hit {num} hit_id hit_score hit_source.
Arguments hit_id {num} h.
Arguments hit_score {num} h.
Arguments hit_source {num} h.

Record response (num : Type) : Type := Response {
  hits_total : Z;
  hits_hits : list (hit num)
}.
Arguments Response {num} hits_total hits_hits.
Arguments hits_total {num} r.
Arguments hits_hits {num} r.

(** What the store's scripting language offers on numbers: the [+] and
    the literal [1.0] of the scoring script, the order scores are ranked
    by, and the built-in [cosineSimilarity], which the notebook only
    names in the script it submits. *)
Class Scoring (num : Type) : Type := {
  num_add : num → num → num;
  num_one : num;
  num_leb : num → num → bool;
  cosineSimilarity : list num → list num → num
}.

(** The configuration of the notebook (set in its main script) and the
    two external functions it calls: [json.loads] and [session.run] on
    the embedding graph. *)
Class Notebook (num : Type) : Type := {
  INDEX_NAME : string;
  BATCH_SIZE : nat;
  SEARCH_SIZE : nat;
  json_loads : string → result (value num);
  session_run : list (value num) → result (list (list num))
}.

Section Model.
Context {num : Type} {scoring : Scoring num} {notebook : Notebook num}.
#[local] Abbreviation value := (value num).
#[local] Abbreviation es_index := (es_index num).
#[local] Abbreviation event := (event num).
#[local] Abbreviation world := (world num).
#[local] Abbreviation hit := (hit num).
#[local] Abbreviation response := (response num).

(** [v[key]] for a string key. *)
Definition getitem (v : value) (key : string) : result value :=
  match v with
  | VDict d =>
      match d !! key with
      | Some x => Ok x
      | None => Raise (KeyError key)
      end
  | _ => Raise TypeError
  end.

(** [v[key] = x]. *)
Definition setitem (v : value) (key : string) (x : value) : result value :=
  match v with
  | VDict d => Ok (VDict (<[key := x]> d))
  | _ => Raise TypeError
  end.

(** [l[i]] on a list. *)
Definition list_getitem {A} (l : list A) (i : nat) : result A :=
  match l !! i with
  | Some x => Ok x
  | None => Raise IndexError
  end.

(** [v != s] for a string literal [s]. *)
Definition ne_str (v : value) (s : string) : bool :=
  match v with
  | VStr t => negb (bool_decide (t = s))
  | _ => true
  end.

(** [a % b] on non-negative integers. *)
Definition py_mod (a b : nat) : result nat :=
  match b with
  | 0 => Raise ZeroDivisionError
  | _ => Ok (a mod b)
  end.

(** A vector as a Python list of floats, and back. *)
Definition of_vector (xs : list num) : value := VList (VFloat <$> xs).

Fixpoint floats (vs : list value) : result (list num) :=
  match vs with
  | [] => Ok []
  | VFloat x :: vs' =>
      match floats vs' with
      | Ok xs => Ok (x :: xs)
      | Raise e => Raise e
      end
  | _ :: _ => Raise TypeError
  end.

Definition to_vector (v : value) : result (list num) :=
  match v with
  | VList vs => floats vs
  | _ => Raise TypeError
  end.

(** ** A state and exception monad: Python statements over the world.
    A raised exception keeps the world as it was when it was raised. *)

Definition M (A : Type) : Type := world → result A * world.

#[global] Instance M_ret : MRet M := λ A a w, (Ok a, w).
#[global] Instance M_bind : MBind M := λ A B k m w,
  match m w with
  | (Ok a, w') => k a w'
  | (Raise e, w') => (Raise e, w')
  end.

#[global] Instance result_ret : MRet result := λ A a, Ok a.
#[global] Instance result_bind : MBind result := λ A B k r,
  match r with
  | Ok a => k a
  | Raise e => Raise e
  end.

Definition lift {A} (r : result A) : M A := λ w, (r, w).
Definition raise {A} (e : exn) : M A := lift (Raise e).
Definition get : M world := λ w, (Ok w, w).
Definition put (w : world) : M unit := λ _, (Ok (), w).

(** A call to the outside, recorded in the log. *)
Definition emit (e : event) (w : world) : world :=
  World (es w) (next_id w) (calls w ++ [e]).

Definition call (e : event) : M unit := λ w, (Ok (), emit e w).

(** [print(fmt.format(args...))] *)
Definition print (fmt : string) (args : list value) : M unit :=
  call (print_call fmt args).

(** ** The Elasticsearch client

    The store is outside the notebook; the model keeps what the
    notebook relies on.  Writes are visible at once, so a refresh
    changes nothing; a document is stored as it is sent (the mapping is
    not checked against it) under the next free id. *)

(** [client.indices.delete(index=index, ignore=[404])] *)
Definition indices_delete (index : string) : M unit :=
  call (indices_delete_call index);;
  w ← get;
  put (World (delete index (es w)) (next_id w) (calls w)).

(** [client.indices.create(index=index, body=body)] *)
Definition indices_create (index body : string) : M unit :=
  call (indices_create_call index body);;
  w ← get;
  match es w !! index with
  | Some _ => raise RequestError
  | None =>
      put (World (<[index := EsIndex body []]> (es w)) (next_id w) (calls w))
  end.

(** [client.indices.refresh(index=index)] *)
Definition indices_refresh (index : string) : M unit :=
  call (indices_refresh_call index);;
  w ← get;
  match es w !! index with
  | Some _ => mret ()
  | None => raise NotFoundError
  end.

(** One action of [helpers.bulk].  The keys [_op_type] (default
    ["index"]) and [_index] are taken out of the request, the rest is
    the document; an "index" action adds it to the index, creating the
    index when it is absent.  Other operations are outside the model,
    and so is what the helper and the store make of the further keys
    they read as instructions (an [_id] names the document to replace,
    a [_source] is stored in place of the request, and so on): what is
    said of the stored documents is said of records without such keys,
    see [plain] below. *)
Definition bulk_action (request : value) : M unit :=
  match request with
  | VDict d =>
      match default (VStr "index") (d !! "_op_type"), d !! "_index" with
      | VStr op, Some (VStr index) =>
          if bool_decide (op = "index") then
            let doc := delete "_index" (delete "_op_type" d) in
            w ← get;
            let ix := default (EsIndex EmptyString []) (es w !! index) in
            put (World (<[index := EsIndex (mappings ix)
                                     (documents ix ++ [(next_id w, doc)])]>
                          (es w))
                       (S (next_id w)) (calls w))
          else raise BulkIndexError
      | _, _ => raise BulkIndexError
      end
  | _ => raise BulkIndexError
  end.

Fixpoint bulk_actions (requests : list value) : M unit :=
  match requests with
  | [] => mret ()
  | request :: requests' => bulk_action request;; bulk_actions requests'
  end.

(** [bulk(client, requests)] *)
Definition bulk (requests : list value) : M unit :=
  call (bulk_call requests);;
  bulk_actions requests.

(** The store's ranking: by descending score. *)
Definition before (h1 h2 : hit) : Prop :=
  num_leb (hit_score h2) (hit_score h1) = true.

#[global] Instance before_dec h1 h2 : Decision (before h1 h2).
Proof. unfold before. apply _. Defined.

Definition script : Type :=
  gmap string value → gmap string value → result num.

Fixpoint score_all (source : script) (params : gmap string value)
    (includes : list string) (docs : list (nat * gmap string value))
    : result (list hit) :=
  match docs with
  | [] => Ok []
  | (id, doc) :: docs' =>
      score ← source params doc;
      hits ← score_all source params includes docs';
      Ok (Hit id score (filter (λ kv, kv.1 ∈ includes) doc) :: hits)
  end.

(** [client.search(index=index, body={"size": size, "query":
    {"script_score": {"query": {"match_all": {}}, "script": {"source":
    source, "params": params}}}, "_source": {"includes": includes}})]:
    every document of the index is scored by the script, the hits are
    ranked by descending score and the first [size] are returned; the
    reported total stops at 10000. *)
Definition search (index : string) (size : nat) (source : script)
    (params : gmap string value) (includes : list string) : M response :=
  call (search_call index size params);;
  w ← get;
  match es w !! index with
  | None => raise NotFoundError
  | Some ix =>
      match score_all source params includes (documents ix) with
      | Raise _ => raise RequestError
      | Ok hits =>
          mret (Response (Z.min 10000 (Z.of_nat (length hits)))
                         (take size (merge_sort before hits)))
      end
  end.

(** ** The notebook *)

(** [vector.tolist()] *)
Definition tolist (vector : list num) : list num := vector.

Definition embed_text (text : list value) : M (list (list num)) :=
  call (session_run_call text);;
  vectors ← lift (session_run text);
  mret (tolist <$> vectors).

(** [[doc["title"] for doc in docs]] *)
Fixpoint titles_of (docs : list value) : result (list value) :=
  match docs with
  | [] => Ok []
  | doc :: docs' =>
      title ← getitem doc "title";
      titles ← titles_of docs';
      Ok (title :: titles)
  end.

(** The loop of [index_batch], from index [i] on. *)
Fixpoint requests_from (i : nat) (docs : list value)
    (title_vectors : list (list num)) : result (list value) :=
  match docs with
  | [] => Ok []
  | doc :: docs' =>
      let request := doc in
      request ← setitem request "_op_type" (VStr "index");
      request ← setitem request "_index" (VStr INDEX_NAME);
      title_vector ← list_getitem title_vectors i;
      request ← setitem request "title_vector" (of_vector title_vector);
      requests ← requests_from (S i) docs' title_vectors;
      Ok (request :: requests)
  end.

Definition index_batch (docs : list value) : M unit :=
  titles ← lift (titles_of docs);
  title_vectors ← embed_text titles;
  requests ← lift (requests_from 0 docs title_vectors);
  bulk requests.

(** The loop of [index_data] over the lines of the data file. *)
Fixpoint index_lines (data_file : list string) (docs : list value)
    (count : nat) : M (list value * nat) :=
  match data_file with
  | [] => mret (docs, count)
  | line :: data_file' =>
      let line := strip line in
      doc ← lift (json_loads line);
      type ← lift (getitem doc "type");
      if ne_str type "question" then index_lines data_file' docs count
      else
        let docs := docs ++ [doc] in
        let count := count + 1 in
        r ← lift (py_mod count BATCH_SIZE);
        if r =? 0 then
          index_batch docs;;
          let docs := [] in
          print "Indexed {} documents." [VInt (Z.of_nat count)];;
          index_lines data_file' docs count
        else index_lines data_file' docs count
  end.

(** [index_data], given the contents of the index file and the lines
    of the data file. *)
Definition index_data (index_file : string) (data_file : list string)
    : M unit :=
  print "Creating the 'posts' index." [];;
  indices_delete INDEX_NAME;;
  let source := strip index_file in
  indices_create INDEX_NAME source;;
  '(docs, count) ← index_lines data_file [] 0;
  match docs with
  | [] => mret ()
  | _ =>
      index_batch docs;;
      print "Indexed {} documents." [VInt (Z.of_nat count)]
  end;;
  indices_refresh INDEX_NAME;;
  print "Done indexing." [].

(** The scoring script of [handle_query]:
    [cosineSimilarity(params.query_vector, doc['title_vector']) + 1.0] *)
Definition script_source : script := λ params doc,
  query_vector ← from_option (λ v, to_vector v) (Raise RequestError)
                   (params !! "query_vector");
  title_vector ← from_option (λ v, to_vector v) (Raise RequestError)
                   (doc !! "title_vector");
  Ok (num_add (cosineSimilarity query_vector title_vector) num_one).

Fixpoint print_hits (hits : list hit) : M unit :=
  match hits with
  | [] => mret ()
  | hit :: hits' =>
      print "id: {}, score: {}"
        [VInt (Z.of_nat (hit_id hit)); VFloat (hit_score hit)];;
      print "{}" [VDict (hit_source hit)];;
      print EmptyString [];;
      print_hits hits'
  end.

(** [handle_query], given the line read by [input].  The two elapsed
    times are clock readings and are left out: their lines are
    recorded without the argument. *)
Definition handle_query (query : string) : M unit :=
  vectors ← embed_text [VStr query];
  query_vector ← lift (list_getitem vectors 0);
  response ←
    search INDEX_NAME SEARCH_SIZE script_source
      {["query_vector" := of_vector query_vector]} ["title"; "body"];
  print EmptyString [];;
  print "{} total hits." [VInt (hits_total response)];;
  print "embedding time: {:.2f} ms" [];;
  print "search time: {:.2f} ms" [];;
  print_hits (hits_hits response).

(** What a pass of the query loop meets at its prompt: a line typed at
    [input], and with it the interrupt that may arrive while the query
    is handled, after [cut] of its calls to the outside; an interrupt
    at the prompt itself; or the end of the input. *)
Inductive prompt : Type :=
  | Typed (query : string) (interrupt : option nat)
  | Interrupted
  | Closed.

(** [m], which leaves the store as it is, under an interrupt that
    arrives after [cut] of its calls: the calls made until then stay
    in the log.  An interrupt later than the last call of [m] does not
    meet it. *)
Definition interrupt_after (cut : nat) (m : M unit) : M unit := λ w,
  let '(r, w') := m w in
  let new := drop (length (calls w)) (calls w') in
  if cut <? length new
  then (Raise KeyboardInterrupt,
        World (es w') (next_id w') (calls w ++ take cut new))
  else (r, w').

(** [handle_query()] with its [input("Enter query: ")]. *)
Definition handle_prompt (p : prompt) : M unit :=
  match p with
  | Typed query None => handle_query query
  | Typed query (Some cut) => interrupt_after cut (handle_query query)
  | Interrupted => raise KeyboardInterrupt
  | Closed => raise EOFError
  end.

(** The loop of [run_query_loop] from pass [i] on, [n] passes left:
    [stdin i] is what pass [i] meets.  A KeyboardInterrupt leaves the
    loop; any other exception leaves [run_query_loop]. *)
Fixpoint query_loop (stdin : nat → prompt) (i n : nat) : M unit :=
  match n with
  | 0 => mret ()
  | S n' => λ w,
      match handle_prompt (stdin i) w with
      | (Ok _, w') => query_loop stdin (S i) n' w'
      | (Raise KeyboardInterrupt, w') => (Ok (), w')
      | (Raise e, w') => (Raise e, w')
      end
  end.

Definition run_query_loop (stdin : nat → prompt) : M unit :=
  query_loop stdin 0 5.

(** ** What the claims are stated with *)

(** A line of the data file holding the record [d]: it parses to a
    dict with a [type]. *)
Definition record_line (line : string) (d : gmap string value) : Prop :=
  json_loads (strip line) = Ok (VDict d) ∧ is_Some (d !! "type").

Definition has_type (t : string) (d : gmap string value) : bool :=
  match d !! "type" with
  | Some (VStr s) => bool_decide (s = t)
  | _ => false
  end.

(** The records the loop keeps. *)
Definition questions (records : list (gmap string value))
    : list (gmap string value) :=
  filter (λ d, has_type "question" d = true) records.

Definition title (d : gmap string value) : value :=
  default VNone (d !! "title").

(** The keys [helpers.bulk] takes out of an action as instructions to
    the store, or may come to take: those led by an underscore ([_id],
    [_source], [_routing], [_version], ...) and the bare names it
    accepts as well. *)
Definition reserved (key : string) : bool :=
  String.prefix "_" key
  || bool_decide (key ∈ ["parent"; "pipeline"; "percolate"; "routing";
                         "retry_on_conflict"; "timestamp"; "ttl"; "version";
                         "version_type"; "if_seq_no"; "if_primary_term";
                         "require_alias"; "dynamic_templates"]).

(** A record with none of them: [helpers.bulk] sends it to the store
    as the document, and the store files it under an id of its own. *)
Definition plain (d : gmap string value) : Prop :=
  map_Forall (λ key _, reserved key = false) d.

(** The request [index_batch] builds from a record and its vector, and
    the document the store keeps of it. *)
Definition request_of (d : gmap string value) (v : list num)
    : gmap string value :=
  <["title_vector" := of_vector v]>
    (<["_index" := VStr INDEX_NAME]> (<["_op_type" := VStr "index"]> d)).

Definition document_of (d : gmap string value) (v : list num)
    : gmap string value :=
  delete "_index" (delete "_op_type" (request_of d v)).

(** The vectors the provider returns for a batch. *)
Definition vectors_of (b : list (gmap string value)) : list (list num) :=
  match session_run (title <$> b) with
  | Ok vectors => tolist <$> vectors
  | Raise _ => []
  end.

(** The provider answers a batch with at least one vector per title. *)
Definition embeds (b : list (gmap string value)) : Prop :=
  ∃ vectors, session_run (title <$> b) = Ok vectors ∧ length b ≤ length vectors.

Definition requests_of (b : list (gmap string value)) : list value :=
  VDict <$> zip_with request_of b (vectors_of b).

Definition documents_of (b : list (gmap string value))
    : list (gmap string value) :=
  zip_with document_of b (vectors_of b).

(** Batching in the words of the specification: kept records are
    accumulated; a batch that reaches [size] is flushed; what is pending
    at the end of the stream is the final partial batch. *)
Fixpoint batches {A} (size : nat) (pending kept : list A)
    : list (list A) * list A :=
  match kept with
  | [] => ([], pending)
  | x :: kept' =>
      let pending := pending ++ [x] in
      if length pending =? size then
        let '(full, rest) := batches size [] kept' in (pending :: full, rest)
      else batches size pending kept'
  end.

Definition final_batch {A} (rest : list A) : list (list A) :=
  match rest with
  | [] => []
  | _ => [rest]
  end.

Definition flushes {A} (size : nat) (kept : list A) : list (list A) :=
  let '(full, rest) := batches size [] kept in full ++ final_batch rest.

(** Ingestion seen batch by batch: flush each batch and report the
    running count. *)
Fixpoint flush_all (count : nat) (bs : list (list (gmap string value)))
    : M unit :=
  match bs with
  | [] => mret ()
  | b :: bs' =>
      let count := count + length b in
      index_batch (VDict <$> b);;
      print "Indexed {} documents." [VInt (Z.of_nat count)];;
      flush_all count bs'
  end.

(** Ids in the order the store hands them out. *)
Fixpoint numbered {A} (n : nat) (l : list A) : list (nat * A) :=
  match l with
  | [] => []
  | x :: l' => (n, x) :: numbered (S n) l'
  end.

(** The world after a batch went through [index_batch]. *)
Definition written (b : list (gmap string value)) (w : world) : world :=
  let ix := default (EsIndex EmptyString []) (es w !! INDEX_NAME) in
  World
    (<[INDEX_NAME := EsIndex (mappings ix)
         (documents ix ++ numbered (next_id w) (documents_of b))]> (es w))
    (next_id w + length b)
    (calls w ++ [session_run_call (title <$> b); bulk_call (requests_of b)]).

Fixpoint flushed (count : nat) (bs : list (list (gmap string value)))
    (w : world) : world :=
  match bs with
  | [] => w
  | b :: bs' =>
      let count := count + length b in
      flushed count bs'
        (emit (print_call "Indexed {} documents." [VInt (Z.of_nat count)])
           (written b w))
  end.

(** The documents of an index, without the ids. *)
Definition contents (w : world) (index : string)
    : option (string * list (gmap string value)) :=
  (λ ix, (mappings ix, (documents ix).*2)) <$> es w !! index.

(** The calls of a log that are bulk writes, and those that are runs of
    the embedding provider, with their argument. *)
Definition bulk_calls (log : list event) : list (list value) :=
  omap (λ e, match e with bulk_call requests => Some requests | _ => None end)
    log.

Definition session_runs (log : list event) : list (list value) :=
  omap (λ e, match e with session_run_call text => Some text | _ => None end)
    log.

(** The world once the index has been dropped and created afresh. *)
Definition recreated (index_file : string) (w : world) : world :=
  World
    (<[INDEX_NAME := EsIndex (strip index_file) []]> (delete INDEX_NAME (es w)))
    (next_id w)
    (calls w ++
       [print_call "Creating the 'posts' index." [];
        indices_delete_call INDEX_NAME;
        indices_create_call INDEX_NAME (strip index_file)]).

(** [index_data] seen batch by batch. *)
Definition index_batches (index_file : string)
    (bs : list (list (gmap string value))) : M unit :=
  print "Creating the 'posts' index." [];;
  indices_delete INDEX_NAME;;
  indices_create INDEX_NAME (strip index_file);;
  flush_all 0 bs;;
  indices_refresh INDEX_NAME;;
  print "Done indexing." [].

(** The world after an ingestion that flushed the batches [bs]. *)
Definition ingested (index_file : string)
    (bs : list (list (gmap string value))) (w : world) : world :=
  emit (print_call "Done indexing." [])
    (emit (indices_refresh_call INDEX_NAME)
       (flushed 0 bs (recreated index_file w))).

(** The calls a batch-by-batch ingestion adds to the log. *)
Fixpoint flush_log (count : nat) (bs : list (list (gmap string value)))
    : list event :=
  match bs with
  | [] => []
  | b :: bs' =>
      let count := count + length b in
      [session_run_call (title <$> b); bulk_call (requests_of b);
       print_call "Indexed {} documents." [VInt (Z.of_nat count)]]
      ++ flush_log count bs'
  end.

(** The calls made between the world [w] and the later world [w']. *)
Definition since (w w' : world) : list event :=
  drop (length (calls w)) (calls w').

(** A run only adds calls that satisfy [P]. *)
Definition adds (P : event → Prop) (w w' : world) : Prop :=
  ∃ new, calls w' = calls w ++ new ∧ Forall P new.

Definition only_adds {A} (P : event → Prop) (m : M A) : Prop :=
  ∀ w r w', m w = (r, w') → adds P w w'.

Definition nonempty_call (e : event) : Prop :=
  match e with
  | session_run_call text => text ≠ []
  | bulk_call requests => requests ≠ []
  | _ => True
  end.

(** The provider answers every list of texts with one vector per text. *)
Definition length_preserving : Prop :=
  ∀ text, ∃ vectors,
    session_run text = Ok vectors ∧ length vectors = length text.



(** The vector stored with a document, the hit the scoring script makes
    of a document for the query vector [q], and the lines
    [handle_query] prints for the hits. *)
Definition title_vector (d : gmap string value) : list num :=
  match from_option (λ v, to_vector v) (Raise TypeError) (d !! "title_vector") with
  | Ok v => v
  | Raise _ => []
  end.

Definition scored (q : list num) (doc : nat * gmap string value) : hit :=
  Hit doc.1
    (num_add (cosineSimilarity q (title_vector doc.2)) num_one)
    (filter (λ kv, kv.1 ∈ ["title"; "body"]) doc.2).

Definition hit_log (hits : list hit) : list event :=
  hits ≫= λ hit,
    [print_call "id: {}, score: {}"
       [VInt (Z.of_nat (hit_id hit)); VFloat (hit_score hit)];
     print_call "{}" [VDict (hit_source hit)];
     print_call EmptyString []].

(** ** What the further properties are stated with *)

(** Every run of [m] relates the world before to the world after. *)
Definition runs_in {A} (R : world → world → Prop) (m : M A) : Prop :=
  ∀ w r w', m w = (r, w') → R w w'.

(** Every index but [index] is as it was. *)
Definition elsewhere_kept (index : string) (w w' : world) : Prop :=
  ∀ other, other ≠ index → es w' !! other = es w !! other.

(** A request as [index_batch] builds them: an index operation on the
    target index with a vector. *)
Definition index_request (request : value) : Prop :=
  ∃ d v, request = VDict d ∧
    d !! "_op_type" = Some (VStr "index") ∧
    d !! "_index" = Some (VStr INDEX_NAME) ∧
    d !! "title_vector" = Some (of_vector v).

Definition vectored_call (e : event) : Prop :=
  match e with
  | bulk_call requests => Forall index_request requests
  | _ => True
  end.

(** The documents of the target index, none when it does not exist. *)
Definition stored (w : world) : list (nat * gmap string value) :=
  documents (default (EsIndex EmptyString []) (es w !! INDEX_NAME)).

(** [index_data] from the loop on, once the index is created. *)
Definition index_records (data_file : list string) : M unit :=
  '(docs, count) ← index_lines data_file [] 0;
  match docs with
  | [] => mret ()
  | _ =>
      index_batch docs;;
      print "Indexed {} documents." [VInt (Z.of_nat count)]
  end;;
  indices_refresh INDEX_NAME;;
  print "Done indexing." [].

(** The counts of the progress lines of a log. *)
Definition progress (log : list event) : list (list value) :=
  omap (λ e, match e with
             | print_call fmt args =>
                 if bool_decide (fmt = "Indexed {} documents.")
                 then Some args else None
             | _ => None
             end) log.

(** The first [n] passes of the query loop from pass [i] on, one after
    the other, up to the first exception. *)
Fixpoint handle_prompts (stdin : nat → prompt) (i n : nat) : M unit :=
  match n with
  | 0 => mret ()
  | S n' => handle_prompt (stdin i);; handle_prompts stdin (S i) n'
  end.

(** What [run_query_loop] makes of the exception of a pass. *)
Definition left_with (e : exn) : result unit :=
  match e with
  | KeyboardInterrupt => Ok ()
  | _ => Raise e
  end.

(** The searches of a log, with their size and parameters. *)
Definition search_calls (log : list event)
    : list (string * nat * gmap string value) :=
  omap (λ e, match e with
             | search_call index size params => Some (index, size, params)
             | _ => None
             end) log.

(** ** The claims of the specification that the code does not meet,
    as propositions *)



End Model.

(** ** A small instance, for the examples

    Numbers are integers, a title is embedded as its length and the
    constant one, and the dot product stands in for the store's
    [cosineSimilarity]. *)

Module Demo.

(** The JSON text of a flat record of strings. *)
Definition dq : string := String "034" EmptyString.
Definition newline : string := String "010" EmptyString.

Definition field (kv : string * string) : string :=
  dq +:+ kv.1 +:+ dq +:+ ": " +:+ dq +:+ kv.2 +:+ dq.

Definition dumps (fields : list (string * string)) : string :=
  "{" +:+ String.concat ", " (field <$> fields) +:+ "}".

Definition record (fields : list (string * string)) : gmap string (value Z) :=
  list_to_map (prod_map id VStr <$> fields).

Definition cuda : list (string * string) :=
  [("type", "question"); ("title", "CUDA performance"); ("body", "b1")].
Definition closures : list (string * string) :=
  [("type", "question"); ("title", "C# closures"); ("body", "b2")].
Definition layout : list (string * string) :=
  [("type", "question"); ("title", "HTML layout"); ("body", "b3")].
Definition reply : list (string * string) :=
  [("type", "answer"); ("body", "b4")].
Definition timeout : list (string * string) :=
  [("type", "question"); ("title", "timeout"); ("body", "b5")].

(** [json.loads] on the lines of the examples: the text of one of the
    records above parses to that record, anything else is not JSON. *)
Definition loads (line : string) : result (value Z) :=
  match
    list_find (λ fields, dumps fields = line)
      [cuda; closures; layout; reply; timeout]
  with
  | Some (_, fields) => Ok (VDict (record fields))
  | None => Raise JSONDecodeError
  end.

Definition embed (text : value Z) : list Z :=
  match text with
  | VStr s => [Z.of_nat (String.length s); 1%Z]
  | _ => []
  end.

(** A provider that embeds every text, and one that is down for the
    title [timeout]. *)
Definition run (text : list (value Z)) : result (list (list Z)) :=
  Ok (embed <$> text).

Definition is_timeout (v : value Z) : bool :=
  match v with
  | VStr s => bool_decide (s = "timeout")
  | _ => false
  end.

Definition run_flaky (text : list (value Z)) : result (list (list Z)) :=
  if existsb is_timeout text then Raise SessionError else run text.

Definition dot (a b : list Z) : Z := foldr Z.add 0%Z (zip_with Z.mul a b).

Definition scoring : Scoring Z := {|
  num_add := Z.add;
  num_one := 1%Z;
  num_leb := Z.leb;
  cosineSimilarity := dot
|}.

Definition notebook (size : nat) : Notebook Z := {|
  INDEX_NAME := "posts";
  BATCH_SIZE := size;
  SEARCH_SIZE := 2;
  json_loads := loads;
  session_run := run
|}.

Definition notebook_flaky : Notebook Z := {|
  INDEX_NAME := "posts";
  BATCH_SIZE := 1;
  SEARCH_SIZE := 2;
  json_loads := loads;
  session_run := run_flaky
|}.

Definition line (fields : list (string * string)) : string :=
  dumps fields +:+ newline.

Definition empty : world Z := World ∅ 0 [].

Definition index_file : string := "{mappings}" +:+ newline.

(** A data file of three questions and an answer, the world after it
    went through [index_data] in batches of two, and the index it
    leaves. *)
Definition data_file : list string :=
  [line cuda; line reply; line closures; line layout].

Definition records : list (gmap string (value Z)) :=
  [record cuda; record reply; record closures; record layout].

Definition indexed : world Z :=
  (index_data (notebook := notebook 2) index_file data_file empty).2.

Definition posts : es_index Z :=
  default (EsIndex EmptyString []) (es indexed !! "posts").

(** A data file that starts with a line that is not JSON, and one
    whose first question the flaky provider cannot embed. *)
Definition broken_file : list string :=
  ["not json" +:+ newline; line cuda].

Definition timeout_file : list string := [line timeout; line cuda].




(** A batch for [index_batch], and a query with its vector. *)
Definition batch : list (gmap string (value Z)) :=
  [record cuda; record closures].

Definition query : string := "cuda programming".

Definition query_vector : list Z := embed (VStr query).

(** A world with an old index under the target name, a world with
    an index of another name, a data file of an answer only, and the
    data file without the answer, with other white space around the
    lines. *)
Definition stale : world Z :=
  World {["posts" := EsIndex "{old}" [(0, record reply)]]} 0 [].

Definition shared : world Z :=
  World {["users" := EsIndex "{users}" [(0, record reply)]]} 1 [].

Definition answers_file : list string := [line reply].

Definition questions_file : list string :=
  [" " +:+ dumps cuda; dumps closures +:+ "  "; line layout].

Definition questions_records : list (gmap string (value Z)) :=
  [record cuda; record closures; record layout].

(** What the prompts of two sessions meet.  In the first the query is
    typed twice, the second time with an interrupt while the store
    searches; in the second the input ends after one query. *)
Definition stdin (i : nat) : prompt :=
  match i with
  | 0 => Typed query None
  | 1 => Typed query (Some 2)
  | _ => Interrupted
  end.

Definition closing_stdin (i : nat) : prompt :=
  match i with
  | 0 => Typed query None
  | _ => Closed
  end.

(** White space that takes more than one byte: the no-break space
    U+00A0 and the line separator U+2028. *)
Definition no_break_space : string := String "194" (String "160" EmptyString).

Definition line_separator : string :=
  String "226" (String "128" (String "168" EmptyString)).

(** Runs on the small instance: a flush of [batch], the ingestion of
    the broken file, the query and the query loop on [indexed]. *)
Definition batch_outcome : result unit * world Z :=
  index_batch (notebook := notebook 2) (VDict <$> batch) indexed.


Definition query_outcome : result unit * world Z :=
  handle_query (scoring := scoring) (notebook := notebook 2) query indexed.

Definition loop_outcome : result unit * world Z :=
  run_query_loop (scoring := scoring) (notebook := notebook 2) stdin indexed.

Definition closing_outcome : result unit * world Z :=
  run_query_loop (scoring := scoring) (notebook := notebook 2) closing_stdin
    indexed.

End Demo.

(** * Properties *)

(** ** Batching *)

Section Batches.
Context {A : Type}.
Implicit Types (pending kept rest : list A) (size : nat).

Lemma batches_concat size pending kept :
  concat (batches size pending kept).1 ++ (batches size pending kept).2 =
  pending ++ kept.
Proof.
  revert pending. induction kept as [|x kept IH]; intros pending; cbn.
  - symmetry. apply app_nil_r.
  - destruct (length (pending ++ [x]) =? size).
    + specialize (IH []). destruct (batches size [] kept) as [full rest].
      cbn in *. rewrite <- !app_assoc, IH. reflexivity.
    + rewrite IH, <- app_assoc. reflexivity.
Qed.

Lemma batches_full size pending kept :
  Forall (λ b, length b = size) (batches size pending kept).1.
Proof.
  revert pending. induction kept as [|x kept IH]; intros pending; cbn.
  - constructor.
  - destruct (Nat.eqb_spec (length (pending ++ [x])) size) as [Hfull|_].
    + specialize (IH []). destruct (batches size [] kept) as [full rest].
      cbn in *. constructor; assumption.
    + apply IH.
Qed.

Lemma batches_rest size pending kept :
  0 < size → length pending < size →
  length (batches size pending kept).2 < size.
Proof.
  intros Hsize. revert pending.
  induction kept as [|x kept IH]; intros pending Hpending; cbn.
  - assumption.
  - destruct (Nat.eqb_spec (length (pending ++ [x])) size) as [Hfull|Hpart].
    + specialize (IH [] Hsize). destruct (batches size [] kept) as [full rest].
      cbn in *. assumption.
    + apply IH. rewrite length_app in *. cbn in *. lia.
Qed.

Lemma batches_fill size pending l kept :
  l ≠ [] → length pending + length l = size →
  batches size pending (l ++ kept) =
  ((pending ++ l) :: (batches size [] kept).1, (batches size [] kept).2).
Proof.
  revert pending. induction l as [|x l IH]; intros pending Hne Hlen; [done|].
  cbn [app batches]. cbn [length] in Hlen.
  destruct (Nat.eqb_spec (length (pending ++ [x])) size) as [Hfull|Hpart].
  - rewrite length_app in Hfull. cbn in Hfull.
    assert (l = []) as -> by (apply length_zero_iff_nil; lia).
    cbn [app]. destruct (batches size [] kept). reflexivity.
  - rewrite length_app in Hpart. cbn in Hpart.
    rewrite IH.
    + rewrite <- app_assoc. reflexivity.
    + intros ->. cbn in *. lia.
    + rewrite length_app. cbn. lia.
Qed.

Lemma flushes_concat size kept : concat (flushes size kept) = kept.
Proof.
  unfold flushes. pose proof (batches_concat size [] kept) as H.
  destruct (batches size [] kept) as [full rest]. cbn in H.
  rewrite concat_app, <- H. f_equal.
  destruct rest; cbn; [reflexivity|]. rewrite app_nil_r. reflexivity.
Qed.

(** Every flush but the last carries [size] records; every flush
    carries at least one and at most [size]. *)
Lemma flushes_sizes size kept i b :
  0 < size → flushes size kept !! i = Some b →
  0 < length b ≤ size ∧ (S i < length (flushes size kept) → length b = size).
Proof.
  intros Hsize. unfold flushes.
  pose proof (batches_full size [] kept) as Hfull.
  pose proof (batches_rest size [] kept Hsize) as Hrest.
  destruct (batches size [] kept) as [full rest]. cbn in *.
  specialize (Hrest Hsize).
  intros Hb. apply lookup_app_Some in Hb as [Hb|[Hi Hb]].
  - rewrite Forall_lookup in Hfull. rewrite (Hfull _ _ Hb). lia.
  - destruct rest as [|x rest]; [done|]. cbn in Hb.
    apply list_lookup_singleton_Some in Hb as [Hi' <-].
    split; [cbn in *; lia|]. rewrite length_app. cbn [final_batch length]. lia.
Qed.

Lemma flushes_cons size l kept :
  0 < size → length l = size → flushes size (l ++ kept) = l :: flushes size kept.
Proof.
  intros Hsize Hlen. unfold flushes.
  rewrite (batches_fill size [] l kept); [|intros ->; cbn in *; lia|done].
  destruct (batches size [] kept). reflexivity.
Qed.

Lemma flushes_short size kept :
  kept ≠ [] → length kept ≤ size → flushes size kept = [kept].
Proof.
  intros Hne Hlen. destruct (decide (length kept = size)) as [Heq|Hlt].
  - rewrite <- (app_nil_r kept) at 1. unfold flushes.
    rewrite (batches_fill size [] kept []); done.
  - unfold flushes.
    pose proof (batches_concat size [] kept) as Hc.
    pose proof (batches_full size [] kept) as Hf.
    destruct (batches size [] kept) as [full rest]. cbn in *.
    destruct full as [|b full].
    + cbn in Hc. subst rest. destruct kept; done.
    + apply Forall_cons in Hf as [Hb _].
      apply (f_equal length) in Hc. cbn [concat] in Hc.
      rewrite !length_app in Hc. lia.
Qed.


(** A stream of [n * size] kept records is flushed as [n] full batches. *)
Lemma flushes_multiple size n kept :
  0 < size → length kept = n * size →
  length (flushes size kept) = n ∧
  Forall (λ b, length b = size) (flushes size kept).
Proof.
  intros Hsize. revert kept. induction n as [|n IH]; intros kept Hlen.
  - destruct kept; [|done]. split; [reflexivity|constructor].
  - rewrite <- (take_drop size kept).
    assert (length (take size kept) = size) as Htake by (rewrite length_take; lia).
    rewrite flushes_cons by done.
    destruct (IH (drop size kept)) as [Hn Hall].
    { rewrite length_drop. lia. }
    split; [cbn; lia|constructor; assumption].
Qed.

Lemma flushes_boundary size kept :
  0 < size → length kept = size + 1 →
  length <$> flushes size kept = [size; 1].
Proof.
  intros Hsize Hlen. rewrite <- (take_drop size kept).
  assert (length (take size kept) = size) as Htake by (rewrite length_take; lia).
  assert (length (drop size kept) = 1) as Hdrop by (rewrite length_drop; lia).
  rewrite flushes_cons by done.
  rewrite flushes_short; [|intros E; rewrite E in Hdrop; done|lia].
  cbn. rewrite Htake, Hdrop. reflexivity.
Qed.

End Batches.

(** ** The pipelines *)

Section Properties.
Context {num : Type} {scoring : Scoring num} {notebook : Notebook num}.
Implicit Types (w : world num) (d : gmap string (value num))
  (b : list (gmap string (value num))) (v : list num)
  (P : event num → Prop).

Lemma run_bind {A B} (m : M A) (k : A → M B) w :
  (m ≫= k) w =
  match m w with
  | (Ok a, w') => k a w'
  | (Raise e, w') => (Raise e, w')
  end.
Proof. reflexivity. Qed.

Lemma run_bind_Ok {A B} (m : M A) (k : A → M B) w a w' :
  m w = (Ok a, w') → (m ≫= k) w = k a w'.
Proof. intros H. rewrite run_bind, H. reflexivity. Qed.


Lemma titles_of_records b :
  Forall (λ d, is_Some (d !! "title")) b →
  titles_of (VDict <$> b) = Ok (title <$> b).
Proof.
  induction 1 as [|d b [t Ht] _ IH]; [reflexivity|].
  cbn [fmap list_fmap titles_of]. unfold getitem. rewrite Ht. cbn.
  fold (@fmap list _ _ _ (@VDict num) b).
  rewrite IH. cbn. unfold title. rewrite Ht. reflexivity.
Qed.

Lemma requests_from_records b vs i :
  i + length b ≤ length vs →
  requests_from i (VDict <$> b) vs =
  Ok (VDict <$> zip_with request_of b (drop i vs)).
Proof.
  revert i. induction b as [|d b IH]; intros i Hlen; [reflexivity|].
  cbn [length] in Hlen.
  destruct (lookup_lt_is_Some_2 vs i) as [v Hv]; [lia|].
  cbn [fmap list_fmap requests_from setitem].
  fold (@fmap list _ _ _ (@VDict num) b).
  unfold list_getitem. cbn. rewrite Hv. cbn.
  rewrite IH by lia. cbn.
  rewrite (drop_S _ _ _ Hv). reflexivity.
Qed.

Lemma request_of_op_type d v :
  request_of d v !! "_op_type" = Some (VStr "index").
Proof.
  unfold request_of.
  rewrite lookup_insert_ne by discriminate.
  rewrite lookup_insert_ne by discriminate.
  apply lookup_insert_eq.
Qed.

Lemma request_of_index d v :
  request_of d v !! "_index" = Some (VStr INDEX_NAME).
Proof.
  unfold request_of.
  rewrite lookup_insert_ne by discriminate.
  apply lookup_insert_eq.
Qed.

Lemma bulk_action_request d v w :
  bulk_action (VDict (request_of d v)) w =
  (Ok (),
   let ix := default (EsIndex EmptyString []) (es w !! INDEX_NAME) in
   World (<[INDEX_NAME := EsIndex (mappings ix)
              (documents ix ++ [(next_id w, document_of d v)])]> (es w))
         (S (next_id w)) (calls w)).
Proof.
  unfold bulk_action.
  rewrite request_of_op_type, request_of_index. reflexivity.
Qed.

Lemma bulk_actions_requests b vs w ix :
  es w !! INDEX_NAME = Some ix →
  bulk_actions (VDict <$> zip_with request_of b vs) w =
  (Ok (),
   World (<[INDEX_NAME := EsIndex (mappings ix)
              (documents ix ++ numbered (next_id w) (zip_with document_of b vs))]>
            (es w))
         (next_id w + length (zip_with document_of b vs)) (calls w)).
Proof.
  revert vs w ix. induction b as [|d b IH]; intros vs w ix Hix.
  - cbn. rewrite app_nil_r, Nat.add_0_r. destruct ix, w; cbn in *.
    rewrite insert_id by done. reflexivity.
  - destruct vs as [|v vs].
    + cbn. rewrite app_nil_r, Nat.add_0_r. destruct ix, w; cbn in *.
      rewrite insert_id by done. reflexivity.
    + cbn [zip_with fmap list_fmap bulk_actions].
      fold (@fmap list _ _ _ (@VDict num) (zip_with request_of b vs)).
      erewrite run_bind_Ok by apply bulk_action_request.
      cbn zeta. rewrite Hix. cbn [default].
      erewrite IH by (cbn; apply lookup_insert_eq).
      cbn [es next_id calls mappings documents numbered length].
      rewrite insert_insert_eq, <- app_assoc. cbn [app].
      f_equal. f_equal. lia.
Qed.


Lemma embed_text_run text w :
  embed_text text w =
  match session_run text with
  | Ok vectors => (Ok (tolist <$> vectors), emit (session_run_call text) w)
  | Raise e => (Raise e, emit (session_run_call text) w)
  end.
Proof.
  unfold embed_text. rewrite run_bind. cbn [call].
  rewrite run_bind. unfold lift.
  destruct (session_run text); reflexivity.
Qed.

Lemma vectors_of_embeds b vectors :
  session_run (title <$> b) = Ok vectors → vectors_of b = tolist <$> vectors.
Proof. intros H. unfold vectors_of. rewrite H. reflexivity. Qed.

Lemma length_documents_of b : embeds b → length (documents_of b) = length b.
Proof.
  intros (vectors & Hrun & Hlen). unfold documents_of.
  rewrite (vectors_of_embeds _ _ Hrun), length_zip_with, length_fmap. lia.
Qed.

Lemma length_requests_of b : embeds b → length (requests_of b) = length b.
Proof.
  intros (vectors & Hrun & Hlen). unfold requests_of.
  rewrite (vectors_of_embeds _ _ Hrun), length_fmap, length_zip_with, length_fmap.
  lia.
Qed.

Lemma index_batch_written b w ix :
  Forall (λ d, is_Some (d !! "title")) b → embeds b →
  es w !! INDEX_NAME = Some ix →
  index_batch (VDict <$> b) w = (Ok (), written b w).
Proof.
  intros Htitle Hemb Hix.
  pose proof (length_documents_of b Hemb) as Hdocs.
  destruct Hemb as (vectors & Hrun & Hlen).
  unfold index_batch. rewrite run_bind. unfold lift at 1.
  rewrite (titles_of_records _ Htitle).
  rewrite run_bind, embed_text_run, Hrun.
  rewrite run_bind. unfold lift.
  rewrite requests_from_records by (rewrite length_fmap; lia).
  rewrite drop_0. unfold bulk. rewrite run_bind. cbn [call].
  erewrite bulk_actions_requests by (cbn; exact Hix).
  unfold written, requests_of. rewrite Hix. cbn [default].
  unfold documents_of in *. rewrite (vectors_of_embeds _ _ Hrun) in *.
  rewrite Hdocs. unfold emit. cbn [es next_id calls].
  rewrite <- app_assoc. reflexivity.
Qed.



Lemma questions_cons d records :
  questions (d :: records) =
  if has_type "question" d then d :: questions records else questions records.
Proof.
  unfold questions. rewrite filter_cons.
  destruct (has_type "question" d); case_decide; congruence.
Qed.

Lemma ne_str_has_type d t :
  d !! "type" = Some t → ne_str t "question" = negb (has_type "question" d).
Proof.
  intros Ht. unfold has_type. rewrite Ht.
  destruct t; cbn; try reflexivity.
Qed.

Lemma py_mod_batch k r size :
  0 < size → r ≤ size →
  py_mod (k * size + r) size = Ok (if r =? size then 0 else r).
Proof.
  intros Hsize Hr. unfold py_mod. destruct size as [|n] eqn:E; [lia|].
  rewrite <- E in *. f_equal.
  rewrite Nat.add_comm, Nat.Div0.mod_add.
  destruct (Nat.eqb_spec r size) as [->|Hne].
  - apply Nat.Div0.mod_same.
  - apply Nat.mod_small. lia.
Qed.

Lemma index_lines_batches lines records pending k w :
  0 < BATCH_SIZE →
  Forall2 record_line lines records →
  length pending < BATCH_SIZE →
  index_lines lines (VDict <$> pending) (k * BATCH_SIZE + length pending) w =
  match flush_all (k * BATCH_SIZE)
          (batches BATCH_SIZE pending (questions records)).1 w with
  | (Ok _, w') =>
      (Ok (VDict <$> (batches BATCH_SIZE pending (questions records)).2,
           k * BATCH_SIZE + length pending + length (questions records)), w')
  | (Raise e, w') => (Raise e, w')
  end.
Proof.
  intros Hsize Hlines. revert pending k w.
  induction Hlines as [|line d lines records [Hparse [t Ht]] _ IH];
    intros pending k w Hpending.
  - cbn. rewrite Nat.add_0_r. reflexivity.
  - cbn [index_lines]. rewrite run_bind. unfold lift at 1. rewrite Hparse.
    rewrite run_bind. unfold lift at 1. cbn [getitem]. rewrite Ht.
    rewrite (ne_str_has_type _ _ Ht), questions_cons.
    destruct (has_type "question" d); cbn [negb]; [|apply IH, Hpending].
    rewrite run_bind. unfold lift at 1.
    replace (k * BATCH_SIZE + length pending + 1)
      with (k * BATCH_SIZE + length (pending ++ [d]))
      by (rewrite length_app; cbn; lia).
    rewrite py_mod_batch by (rewrite ?length_app; cbn; lia).
    cbn [batches].
    destruct (Nat.eqb_spec (length (pending ++ [d])) BATCH_SIZE) as [Hfull|Hpart].
    + cbn [Nat.eqb].
      destruct (batches BATCH_SIZE [] (questions records)) as [full rest] eqn:Hb.
      cbn [fst snd flush_all].
      rewrite !run_bind.
      change ((VDict <$> pending) ++ [VDict d])
        with ((VDict <$> pending) ++ (@VDict num <$> [d])).
      rewrite <- (fmap_app VDict pending [d]).
      destruct (index_batch (VDict <$> pending ++ [d]) w) as [[[]|e] w1];
        [|reflexivity].
      rewrite !run_bind. cbn [print call].
      specialize (IH [] (S k) (emit
        (print_call "Indexed {} documents."
           [VInt (Z.of_nat (k * BATCH_SIZE + length (pending ++ [d])))]) w1)).
      rewrite Hb in IH. cbn [fst snd length] in IH.
      replace (S k * BATCH_SIZE + 0)
        with (k * BATCH_SIZE + length (pending ++ [d])) in IH by lia.
      replace (S k * BATCH_SIZE)
        with (k * BATCH_SIZE + length (pending ++ [d])) in IH by lia.
      cbn [fmap list_fmap] in IH. rewrite IH by lia.
      destruct (flush_all _ full _) as [[[]|e] w2]; [|reflexivity].
      do 2 f_equal. f_equal. rewrite length_app. cbn. lia.
    + destruct (length (pending ++ [d])) as [|n] eqn:Hn.
      { rewrite length_app in Hn. cbn in Hn. lia. }
      cbn [Nat.eqb]. rewrite <- Hn.
      change ((VDict <$> pending) ++ [VDict d])
        with ((VDict <$> pending) ++ (@VDict num <$> [d])).
      rewrite <- (fmap_app VDict pending [d]).
      rewrite IH by (rewrite length_app in *; cbn in *; lia).
      destruct (flush_all _ _ _) as [[[]|e] w2]; [|reflexivity].
      do 2 f_equal. f_equal. rewrite length_app. cbn. lia.
Qed.

Lemma flush_all_app count bs1 bs2 w :
  flush_all count (bs1 ++ bs2) w =
  match flush_all count bs1 w with
  | (Ok _, w') => flush_all (count + length (concat bs1)) bs2 w'
  | (Raise e, w') => (Raise e, w')
  end.
Proof.
  revert count w. induction bs1 as [|b bs1 IH]; intros count w.
  - cbn. rewrite Nat.add_0_r. reflexivity.
  - cbn [app flush_all concat]. rewrite !run_bind.
    destruct (index_batch (VDict <$> b) w) as [[[]|e] w1]; [|reflexivity].
    rewrite !run_bind. cbn [print call]. rewrite IH.
    rewrite length_app, Nat.add_assoc. reflexivity.
Qed.

Lemma written_index b w :
  is_Some (es (written b w) !! INDEX_NAME).
Proof. unfold written. cbn. rewrite lookup_insert_eq. eauto. Qed.

Lemma flush_all_flushed count bs w :
  Forall (Forall (λ d, is_Some (d !! "title"))) bs → Forall embeds bs →
  is_Some (es w !! INDEX_NAME) →
  flush_all count bs w = (Ok (), flushed count bs w).
Proof.
  intros Htitle. revert count w.
  induction Htitle as [|b bs Hb _ IH]; intros count w Hemb [ix Hix];
    [reflexivity|].
  apply Forall_cons in Hemb as [Hemb Hembs].
  cbn [flush_all flushed]. rewrite run_bind.
  rewrite (index_batch_written b w ix Hb Hemb Hix).
  rewrite run_bind. cbn [print call].
  apply IH; [assumption|]. apply written_index.
Qed.

Lemma numbered_app {A} n (l1 l2 : list A) :
  numbered n (l1 ++ l2) = numbered n l1 ++ numbered (n + length l1) l2.
Proof.
  revert n. induction l1 as [|x l1 IH]; intros n; cbn.
  - rewrite Nat.add_0_r. reflexivity.
  - rewrite IH. do 3 f_equal. lia.
Qed.

Lemma numbered_snd {A} n (l : list A) : (numbered n l).*2 = l.
Proof. revert n. induction l as [|x l IH]; intros n; cbn; [|rewrite IH]; done. Qed.

Lemma flushed_index count bs w ix :
  Forall embeds bs → es w !! INDEX_NAME = Some ix →
  es (flushed count bs w) !! INDEX_NAME =
  Some (EsIndex (mappings ix)
          (documents ix ++ numbered (next_id w) (concat (documents_of <$> bs)))).
Proof.
  intros Hemb. revert count w ix.
  induction Hemb as [|b bs Hb _ IH]; intros count w ix Hix.
  - cbn. rewrite app_nil_r. destruct ix; exact Hix.
  - cbn [flushed fmap list_fmap concat].
    erewrite IH; [|cbn; rewrite Hix; apply lookup_insert_eq].
    cbn [mappings documents default emit written next_id].
    rewrite numbered_app, (length_documents_of b Hb), app_assoc. reflexivity.
Qed.


Lemma flushed_calls count bs w :
  calls (flushed count bs w) = calls w ++ flush_log count bs.
Proof.
  revert count w. induction bs as [|b bs IH]; intros count w.
  - cbn. rewrite app_nil_r. reflexivity.
  - cbn [flushed flush_log]. rewrite IH. cbn [emit written calls].
    rewrite <- !app_assoc. reflexivity.
Qed.

Lemma flush_log_bulk_calls count bs :
  bulk_calls (flush_log count bs) = requests_of <$> bs.
Proof.
  revert count. induction bs as [|b bs IH]; intros count; [reflexivity|].
  cbn [flush_log]. unfold bulk_calls in *. rewrite omap_app, IH. reflexivity.
Qed.

Lemma flush_log_session_runs count bs :
  session_runs (flush_log count bs) = (λ b, title <$> b) <$> bs.
Proof.
  revert count. induction bs as [|b bs IH]; intros count; [reflexivity|].
  cbn [flush_log]. unfold session_runs in *. rewrite omap_app, IH. reflexivity.
Qed.

Lemma since_app w w' new : calls w' = calls w ++ new → since w w' = new.
Proof. intros H. unfold since. rewrite H. apply drop_app_length. Qed.

Lemma indices_delete_run index w :
  indices_delete index w =
  (Ok (), World (delete index (es w)) (next_id w)
            (calls w ++ [indices_delete_call index])).
Proof. reflexivity. Qed.

Lemma indices_create_run index body w :
  es w !! index = None →
  indices_create index body w =
  (Ok (), World (<[index := EsIndex body []]> (es w)) (next_id w)
            (calls w ++ [indices_create_call index body])).
Proof.
  intros Hnone. unfold indices_create.
  rewrite !run_bind. cbn [call]. rewrite !run_bind. cbn [get emit es].
  rewrite Hnone. reflexivity.
Qed.

Lemma indices_refresh_run index w :
  is_Some (es w !! index) →
  indices_refresh index w = (Ok (), emit (indices_refresh_call index) w).
Proof.
  intros [ix Hix]. unfold indices_refresh.
  rewrite !run_bind. cbn [call]. rewrite !run_bind. cbn [get emit es].
  rewrite Hix. reflexivity.
Qed.

Lemma recreate_bind {A} index_file (k : M A) w :
  (print "Creating the 'posts' index." [];;
   indices_delete INDEX_NAME;;
   indices_create INDEX_NAME (strip index_file);; k) w =
  k (recreated index_file w).
Proof.
  rewrite run_bind. cbn [print call].
  rewrite run_bind, indices_delete_run.
  rewrite run_bind, indices_create_run by apply lookup_delete_eq.
  unfold recreated. cbn [emit es next_id calls].
  rewrite <- !app_assoc. reflexivity.
Qed.

Lemma index_data_batches index_file lines records w :
  0 < BATCH_SIZE → Forall2 record_line lines records →
  index_data index_file lines w =
  index_batches index_file (flushes BATCH_SIZE (questions records)) w.
Proof.
  intros Hsize Hlines. unfold index_data, index_batches.
  cbn zeta. rewrite !recreate_bind.
  generalize (recreated index_file w). clear w. intros w.
  rewrite run_bind.
  change (index_lines lines [] 0 w)
    with (index_lines lines (VDict <$> [])
            (0 * BATCH_SIZE + length (@nil (gmap string (value num)))) w).
  rewrite (index_lines_batches lines records [] 0 w Hsize Hlines)
    by (cbn; lia).
  unfold flushes.
  pose proof (batches_concat BATCH_SIZE [] (questions records)) as Hc.
  destruct (batches BATCH_SIZE [] (questions records)) as [full rest].
  cbn [fst snd app length] in *.
  rewrite (run_bind (flush_all _ _)), flush_all_app.
  cbn [Nat.mul Nat.add].
  destruct (flush_all 0 full w) as [[[]|e] w1]; [|reflexivity].
  destruct rest as [|x rest].
  - reflexivity.
  - cbn [fmap list_fmap final_batch flush_all].
    rewrite !run_bind.
    fold (@fmap list _ _ _ (@VDict num) rest).
    destruct (index_batch (VDict x :: (VDict <$> rest)) w1) as [[[]|e] w2];
      [|reflexivity].
    rewrite !run_bind. cbn [print call mret M_ret].
    rewrite <- Hc, length_app. reflexivity.
Qed.

Lemma recreated_index index_file w :
  es (recreated index_file w) !! INDEX_NAME =
  Some (EsIndex (strip index_file) []).
Proof. apply lookup_insert_eq. Qed.

Lemma index_batches_ingested index_file bs w :
  Forall (Forall (λ d, is_Some (d !! "title"))) bs → Forall embeds bs →
  index_batches index_file bs w = (Ok (), ingested index_file bs w).
Proof.
  intros Htitle Hemb. unfold index_batches. rewrite recreate_bind.
  rewrite run_bind, (flush_all_flushed _ _ _ Htitle Hemb)
    by (rewrite recreated_index; eauto).
  rewrite run_bind, indices_refresh_run
    by (erewrite flushed_index by eauto using recreated_index; eauto).
  reflexivity.
Qed.

Lemma ingested_index index_file bs w :
  Forall embeds bs →
  es (ingested index_file bs w) !! INDEX_NAME =
  Some (EsIndex (strip index_file)
          (numbered (next_id w) (concat (documents_of <$> bs)))).
Proof.
  intros Hemb. unfold ingested. cbn [emit es].
  erewrite flushed_index by eauto using recreated_index. reflexivity.
Qed.

Lemma ingested_since index_file bs w :
  since w (ingested index_file bs w) =
  [print_call "Creating the 'posts' index." [];
   indices_delete_call INDEX_NAME;
   indices_create_call INDEX_NAME (strip index_file)]
  ++ flush_log 0 bs
  ++ [indices_refresh_call INDEX_NAME; print_call "Done indexing." []].
Proof.
  apply since_app. unfold ingested. cbn [emit calls].
  rewrite flushed_calls. cbn [recreated calls].
  rewrite <- !app_assoc. reflexivity.
Qed.

Lemma ingested_bulk_calls index_file bs w :
  bulk_calls (since w (ingested index_file bs w)) = requests_of <$> bs.
Proof.
  rewrite ingested_since. unfold bulk_calls. rewrite !omap_app.
  fold (bulk_calls (flush_log 0 bs)). rewrite flush_log_bulk_calls.
  cbn. apply app_nil_r.
Qed.

Lemma ingested_session_runs index_file bs w :
  session_runs (since w (ingested index_file bs w)) =
  (λ b, title <$> b) <$> bs.
Proof.
  rewrite ingested_since. unfold session_runs. rewrite !omap_app.
  fold (session_runs (flush_log 0 bs)). rewrite flush_log_session_runs.
  cbn. apply app_nil_r.
Qed.

(** The batches of a well-formed stream can all be flushed. *)
Lemma length_preserving_embeds b : length_preserving → embeds b.
Proof.
  intros Hrun. destruct (Hrun (title <$> b)) as (vectors & Hv & Hlen).
  exists vectors. split; [assumption|]. rewrite Hlen, length_fmap. done.
Qed.

Lemma flushes_titles size records :
  Forall (λ d, is_Some (d !! "title")) (questions records) →
  Forall (Forall (λ d, is_Some (d !! "title")))
    (flushes size (questions records)).
Proof.
  intros H. apply Forall_concat. rewrite flushes_concat. exact H.
Qed.

Lemma index_data_ingested index_file data_file records w :
  0 < BATCH_SIZE →
  Forall2 record_line data_file records →
  Forall (λ d, is_Some (d !! "title")) (questions records) →
  Forall embeds (flushes BATCH_SIZE (questions records)) →
  index_data index_file data_file w =
  (Ok (), ingested index_file (flushes BATCH_SIZE (questions records)) w).
Proof.
  intros Hsize Hlines Htitle Hemb.
  rewrite (index_data_batches _ _ _ _ Hsize Hlines).
  apply index_batches_ingested; [apply flushes_titles, Htitle|exact Hemb].
Qed.

Lemma document_of_lookup d v key :
  key ≠ "title_vector" → key ≠ "_index" → key ≠ "_op_type" →
  document_of d v !! key = d !! key.
Proof.
  intros H1 H2 H3. unfold document_of, request_of.
  rewrite !lookup_delete_ne by congruence.
  rewrite !lookup_insert_ne by congruence. reflexivity.
Qed.

Lemma request_of_lookup d v key :
  key ≠ "title_vector" → key ≠ "_index" → key ≠ "_op_type" →
  request_of d v !! key = d !! key.
Proof.
  intros H1 H2 H3. unfold request_of.
  rewrite !lookup_insert_ne by congruence. reflexivity.
Qed.

Lemma document_of_title_vector d v :
  document_of d v !! "title_vector" = Some (of_vector v).
Proof.
  unfold document_of, request_of.
  rewrite !lookup_delete_ne by discriminate. apply lookup_insert_eq.
Qed.

Lemma has_type_document_of t d v :
  has_type t (document_of d v) = has_type t d.
Proof. unfold has_type. rewrite document_of_lookup by discriminate. done. Qed.

Lemma has_type_request_of t d v :
  has_type t (request_of d v) = has_type t d.
Proof. unfold has_type. rewrite request_of_lookup by discriminate. done. Qed.

Lemma Forall_zip_with_l {A B C} (f : A → B → C) (P : A → Prop) (Q : C → Prop)
    (l : list A) (k : list B) :
  (∀ x y, P x → Q (f x y)) → Forall P l → Forall Q (zip_with f l k).
Proof.
  intros Hf Hl. revert k. induction Hl as [|x l Hx _ IH]; intros [|y k]; cbn;
    constructor; auto.
Qed.

Lemma questions_type records :
  Forall (λ d, has_type "question" d = true) (questions records).
Proof. apply Forall_forall. intros d Hd. by apply list_elem_of_filter in Hd as [? _]. Qed.

Lemma flushes_type size records :
  Forall (Forall (λ d, has_type "question" d = true))
    (flushes size (questions records)).
Proof. apply Forall_concat. rewrite flushes_concat. apply questions_type. Qed.

Lemma length_concat_documents bs :
  Forall embeds bs →
  length (concat (documents_of <$> bs)) = length (concat bs).
Proof.
  induction 1 as [|b bs Hb _ IH]; [reflexivity|].
  cbn. rewrite !length_app, IH, (length_documents_of b Hb). reflexivity.
Qed.

Lemma contents_ingested index_file bs w :
  Forall embeds bs →
  contents (ingested index_file bs w) INDEX_NAME =
  Some (strip index_file, concat (documents_of <$> bs)).
Proof.
  intros Hemb. unfold contents. rewrite (ingested_index _ _ _ Hemb).
  cbn. rewrite numbered_snd. reflexivity.
Qed.

(** C2: a well-formed stream with N records of type question (and any
    number of other records, such as the M answers), the questions
    plain records, is ingested into exactly N persisted items, all of
    type question, and every request of every bulk write is a record of
    type question: no answer is written. *)
Theorem ingestion_persists_questions index_file data_file records w :
  0 < BATCH_SIZE →
  Forall2 record_line data_file records →
  Forall (λ d, is_Some (d !! "title")) (questions records) →
  Forall plain (questions records) →
  length_preserving →
  ∃ w' docs,
    index_data index_file data_file w = (Ok (), w') ∧
    contents w' INDEX_NAME = Some (strip index_file, docs) ∧
    length docs = length (questions records) ∧
    Forall (λ d, has_type "question" d = true ∧ has_type "answer" d = false)
      docs ∧
    Forall (Forall (λ request, ∃ d, request = VDict d ∧
                      has_type "question" d = true ∧
                      has_type "answer" d = false))
      (bulk_calls (since w w')).
Proof.
  intros Hsize Hlines Htitle _ Hrun.
  set (bs := flushes BATCH_SIZE (questions records)).
  assert (Forall embeds bs) as Hemb
    by (apply Forall_forall; intros b _; by apply length_preserving_embeds).
  assert (∀ d, has_type "question" d = true → has_type "answer" d = false)
    as Hexcl.
  { intros d. unfold has_type. destruct (d !! "type") as [[]|]; try done.
    rewrite !bool_decide_eq_true, bool_decide_eq_false. congruence. }
  exists (ingested index_file bs w), (concat (documents_of <$> bs)).
  split; [by apply index_data_ingested|].
  split; [by apply contents_ingested|].
  split.
  { rewrite (length_concat_documents _ Hemb). unfold bs.
    rewrite flushes_concat. reflexivity. }
  pose proof (flushes_type BATCH_SIZE records) as Htype. fold bs in Htype.
  split.
  - apply Forall_concat, Forall_fmap.
    eapply Forall_impl; [exact Htype|]. intros b Hb. cbn.
    unfold documents_of. eapply Forall_zip_with_l; [|exact Hb].
    intros d v Hd. cbn in *. rewrite !has_type_document_of. auto.
  - rewrite ingested_bulk_calls. apply Forall_fmap.
    eapply Forall_impl; [exact Htype|]. intros b Hb. cbn.
    unfold requests_of. apply Forall_fmap.
    eapply Forall_zip_with_l; [|exact Hb].
    intros d v Hd. cbn in *. eexists. split; [reflexivity|].
    rewrite !has_type_request_of. auto.
Qed.

(** C3: the kept records of a well-formed stream are written in bulk
    calls that, put end to end, are the kept records in order; every
    call but the last carries BATCH_SIZE records and the last between one
    and BATCH_SIZE; a stream of BATCH_SIZE + 1 questions makes exactly two
    bulk calls, of BATCH_SIZE records and of one record, in that order. *)
Theorem batches_flushed_at_batch_size index_file data_file records w :
  0 < BATCH_SIZE →
  Forall2 record_line data_file records →
  Forall (λ d, is_Some (d !! "title")) (questions records) →
  length_preserving →
  ∃ w' bs,
    index_data index_file data_file w = (Ok (), w') ∧
    bulk_calls (since w w') = requests_of <$> bs ∧
    length <$> bulk_calls (since w w') = length <$> bs ∧
    concat bs = questions records ∧
    (∀ i b, bs !! i = Some b →
       0 < length b ≤ BATCH_SIZE ∧
       (S i < length bs → length b = BATCH_SIZE)) ∧
    (length (questions records) = BATCH_SIZE + 1 →
       length <$> bulk_calls (since w w') = [BATCH_SIZE; 1]).
Proof.
  intros Hsize Hlines Htitle Hrun.
  set (bs := flushes BATCH_SIZE (questions records)).
  assert (Forall embeds bs) as Hemb
    by (apply Forall_forall; intros b _; by apply length_preserving_embeds).
  assert (length <$> (requests_of <$> bs) = length <$> bs) as Hlen.
  { rewrite <- list_fmap_compose. apply Forall_fmap_ext.
    eapply Forall_impl; [exact Hemb|]. intros b Hb. cbn.
    by apply length_requests_of. }
  exists (ingested index_file bs w), bs.
  split; [by apply index_data_ingested|].
  rewrite ingested_bulk_calls.
  split; [reflexivity|]. split; [exact Hlen|].
  split; [apply flushes_concat|].
  split; [intros i b Hb; by apply flushes_sizes|].
  intros Hn. rewrite Hlen. by apply flushes_boundary.
Qed.


Lemma adds_refl P w : adds P w w.
Proof. exists []. rewrite app_nil_r. split; [reflexivity|constructor]. Qed.

Lemma adds_trans P w1 w2 w3 : adds P w1 w2 → adds P w2 w3 → adds P w1 w3.
Proof.
  intros (n1 & H1 & P1) (n2 & H2 & P2). exists (n1 ++ n2).
  rewrite H2, H1, app_assoc. split; [reflexivity|by apply Forall_app].
Qed.

Lemma adds_same P w w' : calls w' = calls w → adds P w w'.
Proof. intros H. exists []. rewrite app_nil_r. split; [done|constructor]. Qed.

Lemma only_adds_ret {A} P (a : A) : only_adds P (mret a).
Proof. intros w r w' [= <- <-]. apply adds_refl. Qed.

Lemma only_adds_lift {A} P (r : result A) : only_adds P (lift r).
Proof. intros w r' w' [= <- <-]. apply adds_refl. Qed.

Lemma only_adds_call P e : P e → only_adds P (call e).
Proof.
  intros He w r w' [= <- <-]. exists [e]. split; [reflexivity|].
  by constructor.
Qed.

Lemma only_adds_bind {A B} P (m : M A) (k : A → M B) :
  only_adds P m → (∀ a, only_adds P (k a)) → only_adds P (m ≫= k).
Proof.
  intros Hm Hk w r w' Hrun. rewrite run_bind in Hrun.
  destruct (m w) as [[a|e] w1] eqn:Hmw.
  - eapply adds_trans; [eapply Hm|eapply Hk]; eassumption.
  - injection Hrun as <- <-. eapply Hm; eassumption.
Qed.

Lemma only_adds_update P (f : world num → world num) :
  (∀ w, calls (f w) = calls w) → only_adds P (get ≫= λ w, put (f w)).
Proof. intros Hf w r w' [= <- <-]. apply adds_same, Hf. Qed.

Lemma only_adds_bulk_action P request : only_adds P (bulk_action request).
Proof.
  unfold bulk_action.
  destruct request as [| | | | |?|d]; try apply only_adds_lift.
  destruct (default _ _) as [| | | |op| |]; try apply only_adds_lift.
  destruct (d !! "_index") as [[| | | |index| |]|]; try apply only_adds_lift.
  case_bool_decide; [|apply only_adds_lift].
  apply (only_adds_update P (λ w, World _ _ (calls w))). reflexivity.
Qed.

Lemma only_adds_bulk_actions P requests : only_adds P (bulk_actions requests).
Proof.
  induction requests as [|request requests IH]; [apply only_adds_ret|].
  apply only_adds_bind; [apply only_adds_bulk_action|intros _; exact IH].
Qed.

Lemma titles_of_length (docs titles : list (value num)) :
  titles_of docs = Ok titles → length titles = length docs.
Proof.
  revert titles. induction docs as [|doc docs IH]; intros titles; cbn.
  - intros [= <-]. reflexivity.
  - destruct (getitem doc "title"); cbn; [|done].
    destruct (titles_of docs); cbn; [|done].
    intros [= <-]. cbn. f_equal. by apply IH.
Qed.

Lemma requests_from_length i (docs : list (value num)) vs requests :
  requests_from i docs vs = Ok requests → length requests = length docs.
Proof.
  revert i requests. induction docs as [|doc docs IH]; intros i requests; cbn.
  - intros [= <-]. reflexivity.
  - destruct (setitem doc _ _); cbn; [|done].
    destruct (setitem _ _ _); cbn; [|done].
    destruct (list_getitem vs i); cbn; [|done].
    destruct (setitem _ _ _); cbn; [|done].
    destruct (requests_from (S i) docs vs) eqn:Hr; cbn; [|done].
    intros [= <-]. cbn. f_equal. by eapply IH.
Qed.

Lemma adds_emit P e w : P e → adds P w (emit e w).
Proof. intros He. exists [e]. split; [reflexivity|by constructor]. Qed.


Lemma length_nonempty {A B} (l : list A) (k : list B) :
  k ≠ [] → length l = length k → l ≠ [].
Proof. destruct l, k; done. Qed.

Lemma only_adds_index_batch (docs : list (value num)) :
  docs ≠ [] → only_adds nonempty_call (index_batch docs).
Proof.
  intros Hne w r w' Hrun. unfold index_batch in Hrun.
  rewrite run_bind in Hrun. unfold lift at 1 in Hrun.
  destruct (titles_of docs) as [titles|e] eqn:Ht.
  2:{ injection Hrun as <- <-. apply adds_refl. }
  apply titles_of_length in Ht.
  assert (adds nonempty_call w (emit (session_run_call titles) w)) as Hadd.
  { apply adds_emit. cbn. by eapply length_nonempty. }
  rewrite run_bind, embed_text_run in Hrun.
  destruct (session_run titles) as [vectors|e].
  2:{ injection Hrun as <- <-. exact Hadd. }
  rewrite run_bind in Hrun. unfold lift in Hrun.
  destruct (requests_from 0 docs (tolist <$> vectors)) as [requests|e] eqn:Hr.
  2:{ injection Hrun as <- <-. exact Hadd. }
  apply requests_from_length in Hr.
  unfold bulk in Hrun. rewrite run_bind in Hrun. cbn [call] in Hrun.
  eapply adds_trans; [exact Hadd|].
  eapply adds_trans; [|eapply only_adds_bulk_actions; exact Hrun].
  apply adds_emit. cbn. by eapply length_nonempty.
Qed.

Lemma only_adds_print P fmt args :
  P (print_call fmt args) → only_adds P (print fmt args).
Proof. apply only_adds_call. Qed.

Lemma only_adds_index_lines data_file (docs : list (value num)) count :
  only_adds nonempty_call (index_lines data_file docs count).
Proof.
  revert docs count. induction data_file as [|line data_file IH];
    intros docs count; cbn [index_lines].
  - apply only_adds_ret.
  - apply only_adds_bind; [apply only_adds_lift|]. intros doc.
    apply only_adds_bind; [apply only_adds_lift|]. intros type.
    destruct (ne_str type "question"); [apply IH|].
    apply only_adds_bind; [apply only_adds_lift|]. intros r.
    destruct (r =? 0); [|apply IH].
    apply only_adds_bind.
    { apply only_adds_index_batch. by destruct docs. }
    intros _. apply only_adds_bind; [by apply only_adds_print|].
    intros _. apply IH.
Qed.

Lemma only_adds_indices_delete index :
  only_adds (num := num) nonempty_call (indices_delete index).
Proof.
  apply only_adds_bind; [by apply only_adds_call|]. intros _.
  apply (only_adds_update _ (λ w, World _ _ (calls w))). reflexivity.
Qed.

Lemma only_adds_indices_create index body :
  only_adds (num := num) nonempty_call (indices_create index body).
Proof.
  apply only_adds_bind; [by apply only_adds_call|]. intros _.
  intros w r w' Hrun. rewrite run_bind in Hrun. cbn [get] in Hrun.
  destruct (es w !! index).
  - injection Hrun as <- <-. apply adds_refl.
  - injection Hrun as <- <-. by apply adds_same.
Qed.

Lemma only_adds_indices_refresh index :
  only_adds (num := num) nonempty_call (indices_refresh index).
Proof.
  apply only_adds_bind; [by apply only_adds_call|]. intros _.
  intros w r w' Hrun. rewrite run_bind in Hrun. cbn [get] in Hrun.
  destruct (es w !! index); injection Hrun as <- <-; apply adds_refl.
Qed.

Lemma only_adds_index_data index_file data_file :
  only_adds nonempty_call (index_data index_file data_file).
Proof.
  unfold index_data.
  apply only_adds_bind; [by apply only_adds_print|]. intros _.
  apply only_adds_bind; [apply only_adds_indices_delete|]. intros _.
  apply only_adds_bind; [apply only_adds_indices_create|]. intros _.
  apply only_adds_bind; [apply only_adds_index_lines|]. intros [docs count].
  apply only_adds_bind.
  - destruct docs as [|doc docs]; [apply only_adds_ret|].
    apply only_adds_bind; [by apply only_adds_index_batch|]. intros _.
    by apply only_adds_print.
  - intros _.
    apply only_adds_bind; [apply only_adds_indices_refresh|]. intros _.
    by apply only_adds_print.
Qed.

Lemma fmap_length_replicate {A} (l : list (list A)) size :
  Forall (λ x : list A, length x = size) l →
  length <$> l = replicate (length l) size.
Proof. induction 1 as [|x l Hx _ IH]; cbn; [|rewrite Hx, IH]; reflexivity. Qed.

(** C10: no run of the ingestion, whatever the data file, the provider
    and the store, calls the embedding provider or the bulk write with
    an empty list; on a well-formed stream the provider and the bulk
    write get the same batches, every batch but the last has BATCH_SIZE
    records and the last has at least one, and a stream of n * BATCH_SIZE
    questions is written in exactly n bulk calls of BATCH_SIZE records,
    with no further call. *)
Theorem no_empty_flush :
  (∀ index_file data_file w r w',
     index_data index_file data_file w = (r, w') →
     adds nonempty_call w w') ∧
  (∀ index_file data_file records w,
     0 < BATCH_SIZE →
     Forall2 record_line data_file records →
     Forall (λ d, is_Some (d !! "title")) (questions records) →
     length_preserving →
     ∃ w',
       index_data index_file data_file w = (Ok (), w') ∧
       length <$> session_runs (since w w') =
         length <$> bulk_calls (since w w') ∧
       (∀ i requests,
          bulk_calls (since w w') !! i = Some requests →
          0 < length requests ≤ BATCH_SIZE ∧
          (S i < length (bulk_calls (since w w')) →
           length requests = BATCH_SIZE)) ∧
       (∀ n, length (questions records) = n * BATCH_SIZE →
          length <$> bulk_calls (since w w') = replicate n BATCH_SIZE)).
Proof.
  split.
  { intros index_file data_file w r w'. apply only_adds_index_data. }
  intros index_file data_file records w Hsize Hlines Htitle Hrun.
  set (bs := flushes BATCH_SIZE (questions records)).
  assert (Forall embeds bs) as Hemb
    by (apply Forall_forall; intros b _; by apply length_preserving_embeds).
  assert (length <$> (requests_of <$> bs) = length <$> bs) as Hlen.
  { rewrite <- list_fmap_compose. apply Forall_fmap_ext.
    eapply Forall_impl; [exact Hemb|]. intros b Hb. cbn.
    by apply length_requests_of. }
  exists (ingested index_file bs w).
  split; [by apply index_data_ingested|].
  rewrite ingested_bulk_calls, ingested_session_runs.
  split.
  { rewrite Hlen, <- list_fmap_compose. apply list_fmap_ext.
    intros i b _. cbn. apply length_fmap. }
  split.
  - intros i requests Hi.
    apply list_lookup_fmap_Some in Hi as (b & -> & Hb).
    rewrite length_fmap.
    rewrite (length_requests_of b) by (eapply Forall_lookup_1; eassumption).
    by apply flushes_sizes.
  - intros n Hn. rewrite Hlen.
    destruct (flushes_multiple BATCH_SIZE n (questions records) Hsize Hn)
      as [Hcount Hall].
    fold bs in Hcount, Hall. rewrite <- Hcount.
    by apply fmap_length_replicate.
Qed.

Lemma numbered_lookup {A} n (l : list A) i :
  numbered n l !! i = (λ x, (n + i, x)) <$> l !! i.
Proof.
  revert n i. induction l as [|x l IH]; intros n [|i]; cbn; try done.
  - rewrite Nat.add_0_r. reflexivity.
  - rewrite IH. destruct (l !! i); cbn; [|done]. do 2 f_equal. lia.
Qed.

Lemma length_numbered {A} n (l : list A) : length (numbered n l) = length l.
Proof. revert n. induction l as [|x l IH]; intros n; cbn; [|rewrite IH]; done. Qed.

Lemma fmap_tolist (vectors : list (list num)) : tolist <$> vectors = vectors.
Proof. apply list_fmap_id. Qed.

Lemma title_document_of d v : title (document_of d v) = title d.
Proof. unfold title. rewrite document_of_lookup by discriminate. done. Qed.

Lemma title_request_of d v : title (request_of d v) = title d.
Proof. unfold title. rewrite request_of_lookup by discriminate. done. Qed.

(** C4: a flush of a batch whose records have a title, answered by the
    provider with at least one vector per title, runs the provider once
    on the titles of the batch in order, then sends in one bulk call
    the records in order, the i-th with the i-th vector as its
    [title_vector]; when the i-th vector is the embedding of the i-th
    title, every record sent carries the embedding of its own title.
    When the records are plain, the flush returns and the index holds,
    after what it held, the records in order, each with its vector, its
    title and its body. *)
Theorem index_batch_attaches_vectors b w ix vectors :
  Forall (λ d, is_Some (d !! "title")) b →
  session_run (title <$> b) = Ok vectors →
  length b ≤ length vectors →
  es w !! INDEX_NAME = Some ix →
  ∃ r w' requests,
    index_batch (VDict <$> b) w = (r, w') ∧
    since w w' = [session_run_call (title <$> b); bulk_call requests] ∧
    length requests = length b ∧
    (∀ i d, b !! i = Some d →
       ∃ v,
         vectors !! i = Some v ∧
         requests !! i =
           Some (VDict (<["title_vector" := of_vector v]>
                          (<["_index" := VStr INDEX_NAME]>
                             (<["_op_type" := VStr "index"]> d))))) ∧
    (∀ embed, vectors = embed <$> (title <$> b) →
       Forall (λ request, ∃ d, request = VDict d ∧
                 d !! "title_vector" = Some (of_vector (embed (title d))))
         requests) ∧
    (Forall plain b →
       r = Ok () ∧
       ∃ docs,
         es w' !! INDEX_NAME =
           Some (EsIndex (mappings ix) (documents ix ++ docs)) ∧
         length docs = length b ∧
         (∀ i d, b !! i = Some d →
            ∃ v doc,
              vectors !! i = Some v ∧
              docs !! i = Some (next_id w + i, doc) ∧
              doc !! "title_vector" = Some (of_vector v) ∧
              doc !! "title" = d !! "title" ∧
              doc !! "body" = d !! "body") ∧
         (∀ embed, vectors = embed <$> (title <$> b) →
            Forall (λ doc, doc.2 !! "title_vector" =
                           Some (of_vector (embed (title doc.2)))) docs)).
Proof.
  intros Htitle Hrun Hlen Hix.
  assert (embeds b) as Hemb by (exists vectors; done).
  pose proof (vectors_of_embeds _ _ Hrun) as Hvs. rewrite fmap_tolist in Hvs.
  exists (Ok ()), (written b w), (requests_of b).
  split; [by eapply index_batch_written|].
  split; [by apply since_app|].
  split; [by apply length_requests_of|].
  split.
  { intros i d Hd.
    destruct (lookup_lt_is_Some_2 vectors i) as [v Hv].
    { apply lookup_lt_Some in Hd. lia. }
    exists v. split; [exact Hv|].
    unfold requests_of. rewrite list_lookup_fmap, lookup_zip_with, Hd, Hvs.
    cbn. rewrite Hv. reflexivity. }
  split.
  { intros embed ->. apply Forall_forall. intros request Hrequest.
    apply list_elem_of_lookup in Hrequest as [i Hi].
    unfold requests_of in Hi.
    rewrite list_lookup_fmap, lookup_zip_with, Hvs in Hi.
    destruct (b !! i) as [d|] eqn:Hd; [|done]. cbn in Hi.
    rewrite !list_lookup_fmap, Hd in Hi. cbn in Hi.
    injection Hi as <-. eexists. split; [reflexivity|].
    rewrite title_request_of. apply lookup_insert_eq. }
  intros _. split; [reflexivity|].
  exists (numbered (next_id w) (documents_of b)).
  split; [unfold written; cbn; rewrite Hix; apply lookup_insert_eq|].
  split; [rewrite length_numbered; by apply length_documents_of|].
  split.
  - intros i d Hd.
    destruct (lookup_lt_is_Some_2 vectors i) as [v Hv].
    { apply lookup_lt_Some in Hd. lia. }
    exists v, (document_of d v).
    split; [exact Hv|].
    split.
    { rewrite numbered_lookup. unfold documents_of.
      rewrite lookup_zip_with, Hd, Hvs. cbn. rewrite Hv. reflexivity. }
    split; [apply document_of_title_vector|].
    split; apply document_of_lookup; discriminate.
  - intros embed ->. apply Forall_forall. intros [id doc] Hdoc.
    apply list_elem_of_lookup in Hdoc as [i Hi].
    rewrite numbered_lookup in Hi. unfold documents_of in Hi.
    rewrite lookup_zip_with, Hvs in Hi.
    destruct (b !! i) as [d|] eqn:Hd; [|done]. cbn in Hi.
    rewrite !list_lookup_fmap, Hd in Hi. cbn in Hi.
    injection Hi as _ <-. cbn.
    rewrite title_document_of. apply document_of_title_vector.
Qed.

Lemma run_lift_bind {A B} (r : result A) (k : A → M B) w :
  (lift r ≫= k) w =
  match r with
  | Ok a => k a w
  | Raise e => (Raise e, w)
  end.
Proof. destruct r; reflexivity. Qed.

Lemma index_lines_app l1 l2 (docs : list (value num)) count w :
  index_lines (l1 ++ l2) docs count w =
  match index_lines l1 docs count w with
  | (Ok (docs', count'), w') => index_lines l2 docs' count' w'
  | (Raise e, w') => (Raise e, w')
  end.
Proof.
  revert docs count w. induction l1 as [|line l1 IH]; intros docs count w;
    [reflexivity|].
  cbn [app index_lines]. rewrite !run_lift_bind.
  destruct (json_loads (strip line)) as [doc|e]; [|reflexivity].
  rewrite !run_lift_bind.
  destruct (getitem doc "type") as [type|e]; [|reflexivity].
  destruct (ne_str type "question"); [apply IH|].
  rewrite !run_lift_bind.
  destruct (py_mod (count + 1) BATCH_SIZE) as [r|e]; [|reflexivity].
  destruct (r =? 0); [|apply IH].
  rewrite !(run_bind (index_batch _)).
  destruct (index_batch (docs ++ [doc]) w) as [[[]|e] w1]; [|reflexivity].
  rewrite !(run_bind (print _ _)). cbn [print call]. apply IH.
Qed.



Lemma floats_of_vector v : floats (VFloat <$> v) = Ok v.
Proof. induction v as [|x v IH]; cbn; [|rewrite IH]; reflexivity. Qed.

Lemma to_vector_of_vector v : to_vector (of_vector v) = Ok v.
Proof. apply floats_of_vector. Qed.

Lemma title_vector_stored d v :
  d !! "title_vector" = Some (of_vector v) → title_vector d = v.
Proof.
  intros H. unfold title_vector. rewrite H. cbn -[to_vector].
  rewrite to_vector_of_vector. reflexivity.
Qed.

Lemma script_source_stored q d v :
  d !! "title_vector" = Some (of_vector v) →
  script_source {["query_vector" := of_vector q]} d =
  Ok (num_add (cosineSimilarity q v) num_one).
Proof.
  intros Hv. unfold script_source.
  rewrite lookup_singleton_eq, Hv. cbn [from_option].
  rewrite !to_vector_of_vector. reflexivity.
Qed.

Lemma score_all_scored q docs :
  Forall (λ doc, ∃ v, doc.2 !! "title_vector" = Some (of_vector v)) docs →
  score_all script_source {["query_vector" := of_vector q]} ["title"; "body"]
    docs = Ok (scored q <$> docs).
Proof.
  induction 1 as [|[id d] docs [v Hv] _ IH]; [reflexivity|].
  cbn [score_all fmap list_fmap snd] in *.
  rewrite (script_source_stored _ _ _ Hv).
  fold (@fmap list _ _ _ (scored q) docs). rewrite IH.
  unfold scored at 2. cbn [fst snd]. rewrite (title_vector_stored _ _ Hv).
  reflexivity.
Qed.

Lemma print_hits_run hits w :
  print_hits hits w =
  (Ok (), World (es w) (next_id w) (calls w ++ hit_log hits)).
Proof.
  revert w. induction hits as [|hit hits IH]; intros w.
  - cbn. rewrite app_nil_r. by destruct w.
  - cbn [print_hits]. rewrite !run_bind. cbn [print call].
    rewrite !run_bind. cbn [print call]. rewrite !run_bind. cbn [print call].
    rewrite IH. cbn [emit es next_id calls].
    rewrite <- !app_assoc. reflexivity.
Qed.

(** The documents an ingestion leaves in the index carry their vector
    as a list of floats: what [handle_query] asks of the index. *)
Lemma documents_of_vectors b :
  Forall (λ doc, doc !! "title_vector" = Some (of_vector (title_vector doc)))
    (documents_of b).
Proof.
  unfold documents_of. generalize (vectors_of b). intros vs. revert vs.
  induction b as [|d b IH]; intros [|v vs]; cbn; constructor; auto.
  rewrite (title_vector_stored _ v); apply document_of_title_vector.
Qed.

Lemma ingested_vectors index_file bs w ix :
  Forall embeds bs →
  es (ingested index_file bs w) !! INDEX_NAME = Some ix →
  Forall (λ doc, doc.2 !! "title_vector" =
                 Some (of_vector (title_vector doc.2))) (documents ix).
Proof.
  intros Hemb Hix. rewrite (ingested_index _ _ _ Hemb) in Hix.
  injection Hix as <-. cbn [documents].
  apply (Forall_fmap snd (λ doc, doc !! "title_vector" =
                                 Some (of_vector (title_vector doc)))).
  rewrite numbered_snd. apply Forall_concat, Forall_fmap, Forall_forall.
  intros b _. apply documents_of_vectors.
Qed.

(** C1: for every query text, [handle_query] embeds the text, has the
    store score every record of the index with
    [cosineSimilarity(q, title_vector) + 1.0], [q] being the embedding
    of the text, and prints the first SEARCH_SIZE records of the ranking
    by descending score, each with that shifted score. *)
Theorem query_ranks_by_shifted_cosine query w ix vectors q :
  (∀ x y, num_leb x y = true ∨ num_leb y x = true) →
  (∀ x y z, num_leb x y = true → num_leb y z = true → num_leb x z = true) →
  es w !! INDEX_NAME = Some ix →
  Forall (λ doc, doc.2 !! "title_vector" =
                 Some (of_vector (title_vector doc.2))) (documents ix) →
  session_run [VStr query] = Ok vectors →
  vectors !! 0 = Some q →
  ∃ w' hits rest,
    handle_query query w = (Ok (), w') ∧
    es w' = es w ∧
    since w w' =
      [session_run_call [VStr query];
       search_call INDEX_NAME SEARCH_SIZE {["query_vector" := of_vector q]};
       print_call EmptyString [];
       print_call "{} total hits."
         [VInt (Z.min 10000 (Z.of_nat (length (documents ix))))];
       print_call "embedding time: {:.2f} ms" [];
       print_call "search time: {:.2f} ms" []]
      ++ hit_log hits ∧
    length hits = SEARCH_SIZE `min` length (documents ix) ∧
    hits ++ rest ≡ₚ scored q <$> documents ix ∧
    StronglySorted before (hits ++ rest) ∧
    Forall (λ h, ∃ d v,
              (hit_id h, d) ∈ documents ix ∧
              d !! "title_vector" = Some (of_vector v) ∧
              hit_score h = num_add (cosineSimilarity q v) num_one ∧
              hit_source h = filter (λ kv, kv.1 ∈ ["title"; "body"]) d)
      (hits ++ rest).
Proof.
  intros Htotal Htrans Hix Hdocs Hrun Hq.
  assert (Forall (λ doc, ∃ v, doc.2 !! "title_vector" = Some (of_vector v))
            (documents ix)) as Hdocs'
    by (eapply Forall_impl; [exact Hdocs|]; intros doc Hdoc; cbn beta in *;
        eexists; exact Hdoc).
  clear Hdocs. rename Hdocs' into Hdocs.
  assert (Total before) as Htot by (intros h1 h2; apply Htotal).
  assert (Transitive before) as Htr
    by (intros h1 h2 h3 H12 H23; exact (Htrans _ _ _ H23 H12)).
  set (ranked := merge_sort before (scored q <$> documents ix)).
  assert (ranked ≡ₚ scored q <$> documents ix) as Hperm
    by apply merge_sort_Permutation.
  exists (World (es w) (next_id w)
            (calls w ++
               [session_run_call [VStr query];
                search_call INDEX_NAME SEARCH_SIZE
                  {["query_vector" := of_vector q]};
                print_call EmptyString [];
                print_call "{} total hits."
                  [VInt (Z.min 10000 (Z.of_nat (length (documents ix))))];
                print_call "embedding time: {:.2f} ms" [];
                print_call "search time: {:.2f} ms" []]
               ++ hit_log (take SEARCH_SIZE ranked))),
    (take SEARCH_SIZE ranked), (drop SEARCH_SIZE ranked).
  split.
  { unfold handle_query. rewrite run_bind, embed_text_run, Hrun, fmap_tolist.
    rewrite run_lift_bind. unfold list_getitem. rewrite Hq.
    rewrite run_bind. unfold search. rewrite !run_bind. cbn [call].
    rewrite run_bind. cbn [get emit es]. rewrite Hix.
    rewrite (score_all_scored q _ Hdocs). cbn [mret M_ret].
    rewrite !run_bind. cbn [print call]. rewrite !run_bind. cbn [print call].
    rewrite !run_bind. cbn [print call]. rewrite !run_bind. cbn [print call].
    rewrite print_hits_run. cbn [emit es next_id calls hits_total hits_hits].
    rewrite length_fmap, <- !app_assoc. reflexivity. }
  split; [reflexivity|].
  split; [by apply since_app|].
  split.
  { rewrite length_take, (Permutation_length Hperm), length_fmap. reflexivity. }
  rewrite take_drop.
  split; [exact Hperm|].
  split; [by apply StronglySorted_merge_sort|].
  rewrite Hperm. apply Forall_fmap, Forall_forall. intros [id d] Hin.
  rewrite Forall_forall in Hdocs. destruct (Hdocs _ Hin) as [v Hv].
  exists d, v. cbn in *. rewrite (title_vector_stored _ _ Hv). done.
Qed.

(** ** Further properties of the ingestion *)

Lemma index_data_records index_file data_file w :
  index_data index_file data_file w =
  index_records data_file (recreated index_file w).
Proof. unfold index_data. cbn zeta. by rewrite recreate_bind. Qed.

Lemma index_lines_skipped lines records (docs : list (value num)) count w :
  Forall2 record_line lines records → questions records = [] →
  index_lines lines docs count w = (Ok (docs, count), w).
Proof.
  intros Hlines. revert docs count w.
  induction Hlines as [|line d lines records [Hparse [t Ht]] _ IH];
    intros docs count w Hq; [reflexivity|].
  rewrite questions_cons in Hq.
  cbn [index_lines]. rewrite run_lift_bind, Hparse.
  rewrite run_lift_bind. cbn [getitem]. rewrite Ht.
  rewrite (ne_str_has_type _ _ Ht).
  destruct (has_type "question" d); [done|]. cbn [negb]. by apply IH.
Qed.

(** X1: [index_data] never reads what the target index held: two worlds
    that differ only there are taken to the same result and the same
    world, whatever the files and whatever the outcome. *)
Theorem index_data_forgets_old_index index_file data_file w1 w2 :
  delete INDEX_NAME (es w1) = delete INDEX_NAME (es w2) →
  next_id w1 = next_id w2 →
  calls w1 = calls w2 →
  index_data index_file data_file w1 = index_data index_file data_file w2.
Proof.
  intros Hes Hid Hcalls. rewrite !index_data_records.
  unfold recreated. rewrite Hes, Hid, Hcalls. reflexivity.
Qed.

(** X2: a data file without a question (an empty one, or one of answers
    only) is ingested, for every batch size, without a call of the
    provider or a bulk write: the index is deleted, created empty and
    refreshed. *)
Theorem no_question_no_flush index_file data_file records w :
  Forall2 record_line data_file records →
  questions records = [] →
  ∃ w',
    index_data index_file data_file w = (Ok (), w') ∧
    es w' = <[INDEX_NAME := EsIndex (strip index_file) []]> (es w) ∧
    since w w' =
      [print_call "Creating the 'posts' index." [];
       indices_delete_call INDEX_NAME;
       indices_create_call INDEX_NAME (strip index_file);
       indices_refresh_call INDEX_NAME;
       print_call "Done indexing." []].
Proof.
  intros Hlines Hq.
  exists (emit (print_call "Done indexing." [])
            (emit (indices_refresh_call INDEX_NAME)
               (recreated index_file w))).
  split.
  { unfold index_data. cbn zeta. rewrite recreate_bind.
    rewrite run_bind, (index_lines_skipped _ _ _ _ _ Hlines Hq).
    cbn [mret M_ret]. rewrite run_bind. cbn [mret M_ret].
    rewrite run_bind, indices_refresh_run
      by (rewrite recreated_index; eauto).
    reflexivity. }
  split.
  - cbn. apply insert_delete_eq.
  - apply since_app. cbn. rewrite <- !app_assoc. reflexivity.
Qed.

(** X3: with a batch size of zero the first question ends the run with
    ZeroDivisionError, at [count % BATCH_SIZE], before any call of the
    provider or bulk write, and the created index stays empty. *)
Theorem zero_batch_size_raises index_file skipped line after records d w :
  BATCH_SIZE = 0 →
  Forall2 record_line skipped records →
  questions records = [] →
  record_line line d →
  has_type "question" d = true →
  index_data index_file (skipped ++ line :: after) w =
  (Raise ZeroDivisionError, recreated index_file w).
Proof.
  intros Hsize Hlines Hq [Hparse [t Ht]] Hd.
  unfold index_data. cbn zeta. rewrite recreate_bind.
  rewrite run_bind, index_lines_app.
  rewrite (index_lines_skipped _ _ _ _ _ Hlines Hq).
  cbn [index_lines]. rewrite run_lift_bind, Hparse.
  rewrite run_lift_bind. cbn [getitem]. rewrite Ht.
  rewrite (ne_str_has_type _ _ Ht), Hd. cbn [negb].
  rewrite run_lift_bind, Hsize. reflexivity.
Qed.

(** X4: only the questions of a data file count: two well-formed data
    files with the same questions in the same order are ingested alike,
    with the same result, the same store and the same calls, whatever
    other records lie between the questions. *)
Theorem only_questions_count index_file lines1 lines2 records1 records2 w :
  0 < BATCH_SIZE →
  Forall2 record_line lines1 records1 →
  Forall2 record_line lines2 records2 →
  questions records1 = questions records2 →
  index_data index_file lines1 w = index_data index_file lines2 w.
Proof.
  intros Hsize H1 H2 Hq.
  rewrite (index_data_batches _ _ _ _ Hsize H1).
  rewrite (index_data_batches _ _ _ _ Hsize H2).
  rewrite Hq. reflexivity.
Qed.

(** *** Relations kept by every run *)

Lemma runs_in_ret {A} (R : relation (world num)) (a : A) :
  Reflexive R → runs_in R (mret a).
Proof. intros HR w r w' [= <- <-]. reflexivity. Qed.

Lemma runs_in_lift {A} (R : relation (world num)) (x : result A) :
  Reflexive R → runs_in R (lift x).
Proof. intros HR w r w' [= <- <-]. reflexivity. Qed.

Lemma runs_in_bind {A B} (R : relation (world num)) (m : M A) (k : A → M B) :
  Transitive R → runs_in R m → (∀ a, runs_in R (k a)) → runs_in R (m ≫= k).
Proof.
  intros HR Hm Hk w r w' Hrun. rewrite run_bind in Hrun.
  destruct (m w) as [[a|e] w1] eqn:Hmw.
  - etransitivity; [eapply Hm|eapply Hk]; eassumption.
  - injection Hrun as <- <-. eapply Hm; eassumption.
Qed.

(** What holds of the statements of [index_data] holds of [index_data]. *)
Lemma runs_in_index_lines (R : relation (world num)) lines
    (docs : list (value num)) count :
  PreOrder R →
  (∀ fmt args, runs_in R (print fmt args)) →
  (∀ docs : list (value num), docs ≠ [] → runs_in R (index_batch docs)) →
  runs_in R (index_lines lines docs count).
Proof.
  intros HR Hprint Hbatch. revert docs count.
  induction lines as [|line lines IH]; intros docs count; cbn [index_lines].
  - apply runs_in_ret, _.
  - apply runs_in_bind; [apply _|apply runs_in_lift, _|]. intros doc.
    apply runs_in_bind; [apply _|apply runs_in_lift, _|]. intros type.
    destruct (ne_str type "question"); [apply IH|].
    apply runs_in_bind; [apply _|apply runs_in_lift, _|]. intros r.
    destruct (r =? 0); [|apply IH].
    apply runs_in_bind; [apply _|apply Hbatch; by destruct docs|].
    intros _. apply runs_in_bind; [apply _|apply Hprint|].
    intros _. apply IH.
Qed.

Lemma runs_in_index_records (R : relation (world num)) data_file :
  PreOrder R →
  (∀ fmt args, runs_in R (print fmt args)) →
  runs_in R (indices_refresh INDEX_NAME) →
  (∀ docs : list (value num), docs ≠ [] → runs_in R (index_batch docs)) →
  runs_in R (index_records data_file).
Proof.
  intros HR Hprint Hrefresh Hbatch. unfold index_records.
  apply runs_in_bind; [apply _|by apply runs_in_index_lines|].
  intros [docs count].
  apply runs_in_bind; [apply _| |].
  - destruct docs as [|doc docs]; [apply runs_in_ret, _|].
    apply runs_in_bind; [apply _|by apply Hbatch|]. intros _. apply Hprint.
  - intros _.
    apply runs_in_bind; [apply _|apply Hrefresh|]. intros _. apply Hprint.
Qed.

#[local] Instance adds_preorder P : PreOrder (adds (num := num) P).
Proof. split; [intros w; apply adds_refl|intros w1 w2 w3; apply adds_trans]. Qed.

#[local] Instance elsewhere_kept_preorder index :
  PreOrder (elsewhere_kept (num := num) index).
Proof.
  split; [by intros w other _|].
  intros w1 w2 w3 H12 H23 other Hne. by rewrite H23, H12.
Qed.

(** *** The requests of [index_batch] *)

Lemma requests_from_index_requests i (docs : list (value num)) vs requests :
  requests_from i docs vs = Ok requests → Forall index_request requests.
Proof.
  revert i requests. induction docs as [|doc docs IH]; intros i requests; cbn.
  - intros [= <-]. constructor.
  - destruct doc as [| | | | | |d]; try done. cbn.
    destruct (list_getitem vs i) as [v|]; cbn; [|done].
    destruct (requests_from (S i) docs vs) as [rest|] eqn:Hrest; cbn; [|done].
    intros [= <-]. constructor; [|by eapply IH].
    eexists _, v. split; [reflexivity|].
    split; [|split].
    + rewrite !lookup_insert_ne by discriminate. apply lookup_insert_eq.
    + rewrite lookup_insert_ne by discriminate. apply lookup_insert_eq.
    + apply lookup_insert_eq.
Qed.

Lemma stored_insert w ix docs n log :
  stored (World (<[INDEX_NAME := EsIndex ix docs]> (es w)) n log) = docs.
Proof. unfold stored. cbn. rewrite lookup_insert_eq. reflexivity. Qed.

Lemma bulk_actions_index_requests (requests : list (value num)) w :
  Forall index_request requests →
  ∃ w' new,
    bulk_actions requests w = (Ok (), w') ∧
    calls w' = calls w ∧
    elsewhere_kept INDEX_NAME w w' ∧
    stored w' = stored w ++ new ∧
    (∀ ix, es w !! INDEX_NAME = Some ix →
       es w' !! INDEX_NAME =
       Some (EsIndex (mappings ix) (documents ix ++ new))) ∧
    length new = length requests ∧
    Forall (λ doc, ∃ v, doc.2 !! "title_vector" = Some (of_vector v)) new.
Proof.
  intros Hreq. revert w.
  induction Hreq as [|request requests (d & v & -> & Hop & Hindex & Hv) _ IH];
    intros w.
  { exists w, []. rewrite app_nil_r. repeat split; auto.
    intros [body docs] Hix. by rewrite app_nil_r. }
  set (doc := delete "_index" (delete "_op_type" d)).
  set (w1 := World (<[INDEX_NAME := EsIndex
                        (mappings (default (EsIndex EmptyString [])
                                     (es w !! INDEX_NAME)))
                        (stored w ++ [(next_id w, doc)])]> (es w))
               (S (next_id w)) (calls w)).
  assert (bulk_action (VDict d) w = (Ok (), w1)) as Hstep.
  { unfold bulk_action. rewrite Hop, Hindex. reflexivity. }
  destruct (IH w1)
    as (w' & new & Hrun & Hcalls & Helse & Hstored & Hix' & Hlen & Hnew).
  exists w', ((next_id w, doc) :: new).
  split; [cbn [bulk_actions]; by rewrite run_bind, Hstep|].
  split; [by rewrite Hcalls|].
  split.
  { intros other Hne. rewrite (Helse other Hne). cbn.
    apply lookup_insert_ne. congruence. }
  split.
  { rewrite Hstored. unfold w1. rewrite stored_insert, <- app_assoc. done. }
  split.
  { intros ix Hix. erewrite Hix' by (cbn; apply lookup_insert_eq).
    unfold stored. rewrite Hix. cbn. by rewrite <- app_assoc. }
  split; [cbn; by rewrite Hlen|].
  constructor; [|exact Hnew]. exists v. cbn. unfold doc.
  rewrite !lookup_delete_ne by discriminate. exact Hv.
Qed.

Lemma requests_from_requests i (docs : list (value num)) vs requests :
  requests_from i docs vs = Ok requests →
  ∀ j request, requests !! j = Some request →
    ∃ d v, docs !! j = Some (VDict d) ∧ vs !! (i + j) = Some v ∧
           request = VDict (request_of d v).
Proof.
  revert i requests. induction docs as [|doc docs IH]; intros i requests; cbn.
  - intros [= <-] j request Hj. done.
  - destruct doc as [| | | | | |d]; try done. cbn.
    unfold list_getitem. destruct (vs !! i) as [v|] eqn:Hv; cbn; [|done].
    destruct (requests_from (S i) docs vs) as [rest|] eqn:Hrest; cbn; [|done].
    intros [= <-] [|j] request Hj; cbn in Hj.
    + injection Hj as <-. exists d, v. by rewrite Nat.add_0_r.
    + destruct (IH _ _ Hrest j request Hj) as (d' & v' & Hd & Hv' & ->).
      exists d', v'. by rewrite <- Nat.add_succ_comm.
Qed.

Lemma index_batch_calls (docs : list (value num)) w r w' :
  index_batch docs w = (r, w') →
  ∃ new, calls w' = calls w ++ new ∧
    ((r ≠ Ok () ∧ bulk_calls new = [] ∧ Forall vectored_call new) ∨
     (∃ titles vectors requests,
        new = [session_run_call titles; bulk_call requests] ∧
        session_run titles = Ok vectors ∧
        requests_from 0 docs (tolist <$> vectors) = Ok requests)).
Proof.
  intros Hrun. unfold index_batch in Hrun. rewrite run_lift_bind in Hrun.
  destruct (titles_of docs) as [titles|e].
  2:{ injection Hrun as <- <-. exists []. rewrite app_nil_r.
      split; [done|]. left. repeat split; [done|constructor]. }
  rewrite run_bind, embed_text_run in Hrun.
  destruct (session_run titles) as [vectors|e] eqn:Hvectors.
  2:{ injection Hrun as <- <-. exists [session_run_call titles].
      split; [done|]. left. repeat split; [done|by repeat constructor]. }
  rewrite run_lift_bind in Hrun.
  destruct (requests_from 0 docs (tolist <$> vectors)) as [requests|e] eqn:Hr.
  2:{ injection Hrun as <- <-. exists [session_run_call titles].
      split; [done|]. left. repeat split; [done|by repeat constructor]. }
  unfold bulk in Hrun. rewrite run_bind in Hrun. cbn [call] in Hrun.
  destruct (bulk_actions requests
              (emit (bulk_call requests) (emit (session_run_call titles) w)))
    as [r1 w1] eqn:Hbulk.
  pose proof (only_adds_bulk_actions (λ _, False) requests _ _ _ Hbulk)
    as (log & Hcalls & Hlog).
  destruct log as [|e log]; [|by inversion Hlog]. rewrite app_nil_r in Hcalls.
  exists [session_run_call titles; bulk_call requests]. split.
  - assert (calls w' = calls w1) as -> by (by destruct r1; injection Hrun as _ <-).
    rewrite Hcalls. cbn. by rewrite <- app_assoc.
  - right. by exists titles, vectors, requests.
Qed.

(** X5: [index_batch] sends a batch whole or not at all, whatever the
    documents, the provider and the store.  It makes no bulk call, and
    then it raises, or one bulk call, which carries one request per
    document, in order: the document with its vector, as an index
    operation on the target index. *)
Theorem index_batch_all_or_nothing (docs : list (value num)) w r w' :
  index_batch docs w = (r, w') →
  (bulk_calls (since w w') = [] ∧ r ≠ Ok ()) ∨
  (∃ requests,
     bulk_calls (since w w') = [requests] ∧
     length requests = length docs ∧
     Forall index_request requests ∧
     ∀ i request, requests !! i = Some request →
       ∃ d v, docs !! i = Some (VDict d) ∧
              request = VDict (<["title_vector" := of_vector v]>
                                 (<["_index" := VStr INDEX_NAME]>
                                    (<["_op_type" := VStr "index"]> d)))).
Proof.
  intros Hrun.
  destruct (index_batch_calls _ _ _ _ Hrun)
    as (new & Hcalls & [(Hr & Hnone & _)|(titles & vectors & requests & -> & _ & Hreq)]);
    rewrite (since_app _ _ _ Hcalls).
  { by left. }
  right. exists requests. split; [reflexivity|].
  split; [by eapply requests_from_length|].
  split; [by eapply requests_from_index_requests|].
  intros i request Hi.
  destruct (requests_from_requests _ _ _ _ Hreq i request Hi)
    as (d & v & Hd & _ & ->).
  by exists d, v.
Qed.

(** X6: a batch with a record that has no title is not sent anywhere:
    [index_batch] raises KeyError at [doc["title"]] before it calls the
    provider, and the world is as it was. *)
Theorem missing_title_raises b d w :
  d ∈ b → d !! "title" = None →
  index_batch (VDict <$> b) w = (Raise (KeyError "title"), w).
Proof.
  intros Hd Hnone.
  assert (titles_of (VDict <$> b) = Raise (KeyError "title")) as Ht.
  { induction b as [|d0 b IH]; [by apply elem_of_nil in Hd|].
    cbn [fmap list_fmap titles_of getitem].
    destruct (d0 !! "title") as [t|] eqn:Ht0; [|reflexivity].
    apply elem_of_cons in Hd as [->|Hd]; [congruence|].
    cbn. fold (@fmap list _ _ _ (@VDict num) b). by rewrite IH. }
  unfold index_batch. rewrite run_lift_bind, Ht. reflexivity.
Qed.

Lemma index_batch_store (docs : list (value num)) w r w' :
  index_batch docs w = (r, w') → elsewhere_kept INDEX_NAME w w'.
Proof.
  intros Hrun. unfold index_batch in Hrun. rewrite run_lift_bind in Hrun.
  assert (∀ w0, es w0 = es w → elsewhere_kept INDEX_NAME w w0) as Hsame
    by (intros w0 Hes other _; by rewrite Hes).
  destruct (titles_of docs) as [titles|e].
  2:{ injection Hrun as <- <-. by apply Hsame. }
  rewrite run_bind, embed_text_run in Hrun.
  destruct (session_run titles) as [vectors|e].
  2:{ injection Hrun as <- <-. by apply Hsame. }
  rewrite run_lift_bind in Hrun.
  destruct (requests_from 0 docs (tolist <$> vectors)) as [requests|e] eqn:Hr.
  2:{ injection Hrun as <- <-. by apply Hsame. }
  pose proof (requests_from_index_requests _ _ _ _ Hr) as Hreq.
  unfold bulk in Hrun. rewrite run_bind in Hrun. cbn [call] in Hrun.
  destruct (bulk_actions_index_requests requests
              (emit (bulk_call requests) (emit (session_run_call titles) w))
              Hreq)
    as (w1 & new & Hbulk & _ & Helse & _).
  rewrite Hbulk in Hrun. injection Hrun as <- <-. exact Helse.
Qed.

Lemma runs_in_print_store (R : relation (world num)) fmt args :
  (∀ w w', es w' = es w → R w w') → runs_in R (print fmt args).
Proof. intros HR w r w' [= <- <-]. by apply HR. Qed.

Lemma runs_in_refresh_store (R : relation (world num)) index :
  (∀ w w', es w' = es w → R w w') → runs_in R (indices_refresh index).
Proof.
  intros HR w r w' Hrun. unfold indices_refresh in Hrun.
  rewrite run_bind in Hrun. cbn [call] in Hrun.
  rewrite run_bind in Hrun. cbn [get emit es] in Hrun.
  destruct (es w !! index); injection Hrun as <- <-; by apply HR.
Qed.

(** X7: an ingestion touches no index but its target: whatever the
    files, the provider and the outcome, every other index of the store
    is as it was. *)
Theorem index_data_keeps_other_indices index_file data_file w r w' other :
  index_data index_file data_file w = (r, w') →
  other ≠ INDEX_NAME →
  es w' !! other = es w !! other.
Proof.
  intros Hrun Hne. rewrite index_data_records in Hrun.
  assert (runs_in (elsewhere_kept INDEX_NAME) (index_records data_file))
    as Hrest.
  { assert (∀ w0 w1 : world num,
              es w1 = es w0 → elsewhere_kept INDEX_NAME w0 w1) as Hsame
      by (intros w0 w1 Hes o _; by rewrite Hes).
    apply runs_in_index_records; [apply _| | |].
    - intros fmt args. by apply runs_in_print_store.
    - by apply runs_in_refresh_store.
    - intros docs _ w0 r0 w1 H. by apply (index_batch_store docs w0 r0 w1). }
  rewrite (Hrest _ _ _ Hrun other Hne). cbn.
  rewrite lookup_insert_ne, lookup_delete_ne by congruence. reflexivity.
Qed.



Lemma progress_flush_log_cons count b bs :
  progress (flush_log count (b :: bs)) =
  [VInt (Z.of_nat (count + length b))]
  :: progress (flush_log (count + length b) bs).
Proof. reflexivity. Qed.

Lemma progress_flush_log size bs count :
  (∀ i b, bs !! i = Some b →
     0 < length b ≤ size ∧ (S i < length bs → length b = size)) →
  progress (flush_log count bs) =
    (λ k, [VInt (Z.of_nat (count + Nat.min (k * size) (length (concat bs))))])
    <$> seq 1 (length bs) ∧
  length (concat bs) ≤ length bs * size ∧
  (0 < length bs → (length bs - 1) * size < length (concat bs)).
Proof.
  revert count. induction bs as [|b bs IH]; intros count Hsized.
  { cbn. repeat split; lia. }
  destruct (Hsized 0 b eq_refl) as [Hb Hfull].
  destruct (IH (count + length b)) as (Hprogress & Hupper & Hlower).
  { intros i b' Hi. destruct (Hsized (S i) b' Hi) as [H1 H2].
    split; [exact H1|]. intros Hlt. apply H2. cbn. lia. }
  rewrite progress_flush_log_cons, Hprogress.
  cbn [length concat seq fmap list_fmap]. rewrite length_app.
  destruct bs as [|b2 bs].
  { cbn. rewrite Nat.add_0_r. repeat split; try lia.
    do 3 f_equal. lia. }
  assert (length b = size) as Hsize by (apply Hfull; cbn; lia).
  specialize (Hlower ltac:(cbn; lia)).
  set (n := length (b2 :: bs)) in *.
  set (N := length (concat (b2 :: bs))) in *.
  assert (0 < n) as Hn by (unfold n; cbn; lia).
  clearbody n N.
  split; [|split].
  - f_equal; [do 3 f_equal; lia|].
    rewrite <- (fmap_S_seq 1 n), <- list_fmap_compose.
    apply list_fmap_ext. intros _ k _. cbn beta. unfold compose.
    do 3 f_equal. rewrite Nat.mul_succ_l. lia.
  - rewrite Nat.mul_succ_l. lia.
  - intros _. cbn [Nat.sub]. rewrite Nat.sub_0_r.
    assert (n * size = (n - 1) * size + size) as ->.
    { destruct n; [lia|]. cbn [Nat.sub]. rewrite Nat.sub_0_r.
      apply Nat.mul_succ_l. }
    lia.
Qed.

(** X9: the calls of a well-formed ingestion, complete and in order:
    the index is deleted and created; then, batch after batch, the
    provider is run on the titles, the batch is written in bulk and a
    progress line is printed; then the index is refreshed, once and
    after the last write. *)
Theorem ingestion_calls_in_order index_file data_file records w :
  0 < BATCH_SIZE →
  Forall2 record_line data_file records →
  Forall (λ d, is_Some (d !! "title")) (questions records) →
  length_preserving →
  ∃ w' bs,
    index_data index_file data_file w = (Ok (), w') ∧
    concat bs = questions records ∧
    since w w' =
      [print_call "Creating the 'posts' index." [];
       indices_delete_call INDEX_NAME;
       indices_create_call INDEX_NAME (strip index_file)]
      ++ flush_log 0 bs
      ++ [indices_refresh_call INDEX_NAME; print_call "Done indexing." []].
Proof.
  intros Hsize Hlines Htitle Hrun.
  exists (ingested index_file (flushes BATCH_SIZE (questions records)) w),
    (flushes BATCH_SIZE (questions records)).
  split.
  { apply index_data_ingested; try done.
    apply Forall_forall. intros b _. by apply length_preserving_embeds. }
  split; [apply flushes_concat|apply ingested_since].
Qed.

(** X10: the progress lines of a well-formed ingestion of N questions
    report BATCH_SIZE, 2 * BATCH_SIZE, ... and, last, N: the k-th of the
    n lines reports min (k * BATCH_SIZE) N, and n is N / BATCH_SIZE
    rounded up. *)
Theorem progress_lines_count_questions index_file data_file records w :
  0 < BATCH_SIZE →
  Forall2 record_line data_file records →
  Forall (λ d, is_Some (d !! "title")) (questions records) →
  length_preserving →
  ∃ w' n,
    index_data index_file data_file w = (Ok (), w') ∧
    progress (since w w') =
      (λ k, [VInt (Z.of_nat (Nat.min (k * BATCH_SIZE)
                               (length (questions records))))])
      <$> seq 1 n ∧
    length (questions records) ≤ n * BATCH_SIZE ∧
    (0 < n → (n - 1) * BATCH_SIZE < length (questions records)).
Proof.
  intros Hsize Hlines Htitle Hrun.
  set (bs := flushes BATCH_SIZE (questions records)).
  exists (ingested index_file bs w), (length bs).
  split.
  { apply index_data_ingested; try done.
    apply Forall_forall. intros b _. by apply length_preserving_embeds. }
  destruct (progress_flush_log BATCH_SIZE bs 0) as (Hprogress & Hupper & Hlower).
  { intros i b Hb. by apply flushes_sizes. }
  unfold bs in Hprogress, Hupper, Hlower.
  rewrite flushes_concat in Hprogress, Hupper, Hlower. fold bs in Hprogress.
  split; [|split; assumption].
  rewrite ingested_since. unfold progress in *.
  rewrite !omap_app, Hprogress. cbn. rewrite app_nil_r. reflexivity.
Qed.

Lemma index_lines_strip lines1 lines2 (docs : list (value num)) count w :
  Forall2 (λ l1 l2, strip l1 = strip l2) lines1 lines2 →
  index_lines lines1 docs count w = index_lines lines2 docs count w.
Proof.
  intros Hlines. revert docs count w.
  induction Hlines as [|l1 l2 lines1 lines2 Hl _ IH]; intros docs count w;
    [reflexivity|].
  cbn [index_lines]. rewrite Hl, !run_lift_bind.
  destruct (json_loads (strip l2)) as [doc|e]; [|reflexivity].
  rewrite !run_lift_bind.
  destruct (getitem doc "type") as [type|e]; [|reflexivity].
  destruct (ne_str type "question"); [apply IH|].
  rewrite !run_lift_bind.
  destruct (py_mod (count + 1) BATCH_SIZE) as [r|e]; [|reflexivity].
  destruct (r =? 0); [|apply IH].
  rewrite !(run_bind (index_batch _)).
  destruct (index_batch (docs ++ [doc]) w) as [[[]|e] w1]; [|reflexivity].
  rewrite !(run_bind (print _ _)). cbn [print call]. apply IH.
Qed.

(** X11: [index_data] reads the index file and every line of the data
    file through [strip] only: files that agree up to the white space
    around the index body and around each line are ingested alike, for
    every outcome. *)
Theorem index_data_ignores_outer_space file1 file2 lines1 lines2 w :
  strip file1 = strip file2 →
  Forall2 (λ l1 l2, strip l1 = strip l2) lines1 lines2 →
  index_data file1 lines1 w = index_data file2 lines2 w.
Proof.
  intros Hfile Hlines. rewrite !index_data_records.
  unfold recreated. rewrite Hfile. unfold index_records.
  rewrite !run_bind. by rewrite (index_lines_strip _ _ _ _ _ Hlines).
Qed.

(** ** Further properties of the query pipeline *)

Lemma search_run index size source params includes w :
  ∃ r, search index size source params includes w =
       (r, emit (search_call index size params) w).
Proof.
  unfold search. rewrite run_bind. cbn [call].
  rewrite run_bind. cbn [get emit es].
  destruct (es w !! index) as [ix|]; [|by eexists].
  destruct (score_all source params includes (documents ix)); by eexists.
Qed.

Lemma hit_log_prints (hits : list (hit num)) :
  Forall (λ e, ∃ fmt args, e = print_call fmt args) (hit_log hits).
Proof.
  induction hits as [|h hits IH]; [constructor|].
  change (hit_log (h :: hits)) with
    ([print_call "id: {}, score: {}"
        [VInt (Z.of_nat (hit_id h)); VFloat (hit_score h)];
      print_call "{}" [VDict (hit_source h)];
      print_call EmptyString []] ++ hit_log hits).
  apply Forall_app. split; [|exact IH]. repeat constructor; eauto.
Qed.

Lemma prints_no_session_run (log : list (event num)) :
  Forall (λ e, ∃ fmt args, e = print_call fmt args) log →
  session_runs log = [].
Proof. induction 1 as [|e log (fmt & args & ->) _ IH]; [done|exact IH]. Qed.

Lemma handle_query_outcome query w r w' :
  handle_query query w = (r, w') →
  ∃ log,
    w' = World (es w) (next_id w)
           (calls w ++ session_run_call [VStr query] :: log) ∧
    ((∃ e, r = Raise e ∧
        (log = [] ∨
         ∃ params, log = [search_call INDEX_NAME SEARCH_SIZE params])) ∨
     (r = Ok () ∧ ∃ params prints,
        log = search_call INDEX_NAME SEARCH_SIZE params :: prints ∧
        Forall (λ e, ∃ fmt args, e = print_call fmt args) prints)).
Proof.
  intros Hrun. unfold handle_query in Hrun.
  rewrite run_bind, embed_text_run in Hrun.
  destruct (session_run [VStr query]) as [vectors|e].
  2:{ injection Hrun as <- <-. exists []. split; [done|]. left. eauto. }
  rewrite run_lift_bind in Hrun.
  destruct (list_getitem (tolist <$> vectors) 0) as [q|e].
  2:{ injection Hrun as <- <-. exists []. split; [done|]. left. eauto. }
  rewrite run_bind in Hrun.
  destruct (search_run INDEX_NAME SEARCH_SIZE script_source
              {["query_vector" := of_vector q]} ["title"; "body"]
              (emit (session_run_call [VStr query]) w)) as [r1 Hsearch].
  rewrite Hsearch in Hrun. destruct r1 as [response|e].
  2:{ injection Hrun as <- <-. eexists [_]. split.
      - unfold emit. cbn [es next_id calls]. by rewrite <- app_assoc.
      - left. eauto. }
  rewrite run_bind in Hrun. cbn [print call] in Hrun.
  rewrite run_bind in Hrun. cbn [print call] in Hrun.
  rewrite run_bind in Hrun. cbn [print call] in Hrun.
  rewrite run_bind in Hrun. cbn [print call] in Hrun.
  rewrite print_hits_run in Hrun. injection Hrun as <- <-.
  eexists (_ :: _ :: _ :: _ :: _ :: hit_log (hits_hits response)). split.
  - unfold emit. cbn [es next_id calls]. rewrite <- !app_assoc. reflexivity.
  - right. split; [reflexivity|]. eexists _, _. split; [reflexivity|].
    repeat (constructor; [eauto|]). apply hit_log_prints.
Qed.

(** X12: whatever the query, the provider and the store, [handle_query]
    leaves the store as it was; it runs the provider once, on the query
    alone, then searches at most once, and prints only after a search
    that returned: a query that raises prints nothing. *)
Theorem handle_query_calls query w r w' :
  handle_query query w = (r, w') →
  es w' = es w ∧ next_id w' = next_id w ∧
  ∃ log,
    since w w' = session_run_call [VStr query] :: log ∧
    ((∃ e, r = Raise e ∧
        (log = [] ∨
         ∃ params, log = [search_call INDEX_NAME SEARCH_SIZE params])) ∨
     (r = Ok () ∧ ∃ params prints,
        log = search_call INDEX_NAME SEARCH_SIZE params :: prints ∧
        Forall (λ e, ∃ fmt args, e = print_call fmt args) prints)).
Proof.
  intros Hrun. destruct (handle_query_outcome _ _ _ _ Hrun) as (log & -> & H).
  split; [reflexivity|]. split; [reflexivity|].
  exists log. split; [by apply since_app|exact H].
Qed.

(** X13: when the provider raises on the query, or answers with no
    vector (IndexError at [embed_text([query])[0]]), [handle_query]
    raises before it sends anything to the store. *)
Theorem query_fails_before_search query w e :
  session_run [VStr query] = Raise e ∨
  (session_run [VStr query] = Ok [] ∧ e = IndexError) →
  handle_query query w = (Raise e, emit (session_run_call [VStr query]) w).
Proof.
  intros [Hrun|[Hrun ->]]; unfold handle_query;
    rewrite run_bind, embed_text_run, Hrun; reflexivity.
Qed.

Lemma score_all_raises source params includes
    (docs : list (nat * gmap string (value num))) doc e :
  doc ∈ docs → source params doc.2 = Raise e →
  ∃ e', score_all source params includes docs = Raise e'.
Proof.
  intros Hdoc Hraise. induction docs as [|[id d0] docs IH];
    [by apply elem_of_nil in Hdoc|].
  cbn [score_all]. destruct (source params d0) as [score|e0] eqn:Hd0;
    [|by eexists].
  apply elem_of_cons in Hdoc as [->|Hdoc]; [cbn in *; congruence|].
  destruct (IH Hdoc) as [e' ->]. by eexists.
Qed.

(** X14: a query on a store without the target index, or with a
    document in it that has no vector, raises after the search was sent
    (NotFoundError, RequestError) and prints nothing, not even the hits
    of the documents that have a vector. *)
Theorem query_on_unfit_index query w vectors q e :
  session_run [VStr query] = Ok vectors →
  vectors !! 0 = Some q →
  (es w !! INDEX_NAME = None ∧ e = NotFoundError) ∨
  (∃ ix doc, es w !! INDEX_NAME = Some ix ∧ doc ∈ documents ix ∧
             doc.2 !! "title_vector" = None ∧ e = RequestError) →
  handle_query query w =
  (Raise e,
   emit (search_call INDEX_NAME SEARCH_SIZE {["query_vector" := of_vector q]})
     (emit (session_run_call [VStr query]) w)).
Proof.
  intros Hrun Hq Hcase. unfold handle_query.
  rewrite run_bind, embed_text_run, Hrun, fmap_tolist.
  rewrite run_lift_bind. unfold list_getitem. rewrite Hq.
  rewrite run_bind. unfold search. rewrite run_bind. cbn [call].
  rewrite run_bind. cbn [get emit es].
  destruct Hcase as [[Hnone ->]|(ix & doc & Hix & Hdoc & Hvec & ->)].
  - rewrite Hnone. reflexivity.
  - rewrite Hix.
    destruct (score_all_raises script_source
                {["query_vector" := of_vector q]} ["title"; "body"]
                (documents ix) doc RequestError Hdoc) as [e' ->].
    + unfold script_source. rewrite lookup_singleton_eq, Hvec.
      cbn [from_option]. rewrite to_vector_of_vector. reflexivity.
    + reflexivity.
Qed.

Lemma session_runs_take n (log : list (event num)) :
  session_runs log = [] → session_runs (take n log) = [].
Proof.
  revert n. induction log as [|e log IH]; intros [|n] Hlog; try done.
  destruct e; try done; by apply IH.
Qed.

Lemma handle_prompt_outcome p w r w' :
  handle_prompt p w = (r, w') →
  es w' = es w ∧ next_id w' = next_id w ∧
  ∃ log,
    calls w' = calls w ++ log ∧
    (session_runs log = [] ∨
     ∃ query cut, p = Typed query cut ∧ session_runs log = [[VStr query]]) ∧
    (r = Ok () →
     ∃ query cut, p = Typed query cut ∧ session_runs log = [[VStr query]]).
Proof.
  assert (∀ query w r w', handle_query query w = (r, w') →
            ∃ log1, w' = World (es w) (next_id w)
                           (calls w ++ session_run_call [VStr query] :: log1) ∧
                    session_runs log1 = []) as Hquery.
  { intros query w0 r0 w1 Hrun.
    destruct (handle_query_outcome _ _ _ _ Hrun) as (log1 & -> & Hcase).
    exists log1. split; [reflexivity|].
    destruct Hcase as [(e & _ & [->|[params ->]])|(_ & params & prints & -> & Hp)];
      try reflexivity.
    cbn. by apply prints_no_session_run. }
  intros Hrun. destruct p as [query [cut|]| |]; cbn [handle_prompt] in Hrun.
  - unfold interrupt_after in Hrun.
    destruct (handle_query query w) as [r1 w1] eqn:Hq.
    destruct (Hquery _ _ _ _ Hq) as (log1 & -> & Hlog1).
    cbn [calls es next_id] in Hrun. rewrite drop_app_length in Hrun.
    destruct (cut <? length (session_run_call [VStr query] :: log1)).
    + injection Hrun as <- <-. repeat split.
      exists (take cut (session_run_call [VStr query] :: log1)).
      split; [reflexivity|]. split; [|done].
      destruct cut as [|cut]; [by left|right].
      exists query, (Some (S cut)). split; [reflexivity|].
      change ([VStr query] :: session_runs (take cut log1) = [[VStr query]]).
      by rewrite session_runs_take.
    + injection Hrun as <- <-. repeat split.
      exists (session_run_call [VStr query] :: log1). split; [reflexivity|].
      assert (session_runs (session_run_call [VStr query] :: log1)
              = [[VStr query]]) as Hruns
        by (unfold session_runs in *; cbn; by rewrite Hlog1).
      split; [right|intros _]; by exists query, (Some cut).
  - destruct (Hquery _ _ _ _ Hrun) as (log1 & -> & Hlog1). repeat split.
    exists (session_run_call [VStr query] :: log1). split; [reflexivity|].
    assert (session_runs (session_run_call [VStr query] :: log1)
            = [[VStr query]]) as Hruns
      by (unfold session_runs in *; cbn; by rewrite Hlog1).
    split; [right|intros _]; by exists query, None.
  - injection Hrun as <- <-. repeat split. exists [].
    rewrite app_nil_r. split; [reflexivity|]. split; [by left|done].
  - injection Hrun as <- <-. repeat split. exists [].
    rewrite app_nil_r. split; [reflexivity|]. split; [by left|done].
Qed.

Lemma query_loop_outcome stdin i n w r w' :
  query_loop stdin i n w = (r, w') →
  es w' = es w ∧ next_id w' = next_id w ∧
  (∃ log,
     calls w' = calls w ++ log ∧
     length (session_runs log) ≤ n ∧
     ∀ j text, session_runs log !! j = Some text →
       ∃ query cut, stdin (i + j) = Typed query cut ∧ text = [VStr query]) ∧
  ((r = Ok () ∧ handle_prompts stdin i n w = (Ok (), w')) ∨
   (∃ k w1 e,
      k < n ∧
      handle_prompts stdin i k w = (Ok (), w1) ∧
      handle_prompt (stdin (i + k)) w1 = (Raise e, w') ∧
      r = left_with e)).
Proof.
  revert i w. induction n as [|n IH]; intros i w Hrun; cbn [query_loop] in Hrun.
  { injection Hrun as <- <-. repeat split; [|by left].
    exists []. rewrite app_nil_r. repeat split; [done|]. intros j text Hj. done. }
  destruct (handle_prompt (stdin i) w) as [r1 w1] eqn:Hp.
  destruct (handle_prompt_outcome _ _ _ _ Hp)
    as (Hes1 & Hid1 & log1 & Hcalls1 & Hruns1 & Hok1).
  destruct r1 as [[]|e].
  - destruct (Hok1 eq_refl) as (query & cut & Hi & Hlog1).
    destruct (IH _ _ Hrun)
      as (Hes & Hid & (log & Hcalls & Hlen & Hprefix) & Hcase).
    split; [congruence|]. split; [congruence|]. split.
    + exists (log1 ++ log).
      split; [rewrite Hcalls, Hcalls1; by rewrite <- app_assoc|].
      unfold session_runs in *. rewrite omap_app, Hlog1.
      split; [cbn; lia|].
      intros [|j] text Hj; cbn in Hj.
      * injection Hj as <-. rewrite Nat.add_0_r. by exists query, cut.
      * rewrite <- Nat.add_succ_comm. by apply Hprefix.
    + destruct Hcase as [[-> Hall]|(k & w2 & e & Hk & Hfirst & Hraise & ->)].
      * left. split; [reflexivity|].
        cbn [handle_prompts]. by rewrite run_bind, Hp.
      * right. exists (S k), w2, e. split; [lia|].
        split; [cbn [handle_prompts]; by rewrite run_bind, Hp|].
        split; [|reflexivity]. by rewrite <- Nat.add_succ_comm.
  - assert (r = left_with e ∧ w' = w1) as [-> ->]
      by (destruct e; by injection Hrun as <- <-).
    split; [exact Hes1|]. split; [exact Hid1|]. split.
    + exists log1. split; [exact Hcalls1|].
      destruct Hruns1 as [Hnone|(query & cut & Hi & Hone)].
      * unfold session_runs in *. rewrite Hnone. split; [cbn; lia|].
        intros j text Hj. done.
      * unfold session_runs in *. rewrite Hone. split; [cbn; lia|].
        intros [|j] text Hj; cbn in Hj; [|done].
        injection Hj as <-. rewrite Nat.add_0_r. by exists query, cut.
    + right. exists 0, w, e. split; [lia|]. split; [reflexivity|].
      split; [|reflexivity]. by rewrite Nat.add_0_r.
Qed.

(** X15: [run_query_loop] handles what its prompts meet in order, up
    to the first exception and at most five times, and the store is as
    it was.  Either the five passes return, and so does the loop; or a
    pass raises, no later prompt is shown, and the loop returns when
    the exception is a KeyboardInterrupt (at the prompt or while the
    query is handled) and raises the exception otherwise, such as the
    error of a query or the EOFError of [input].  The provider is run
    at most once per pass, on the line typed at its prompt. *)
Theorem run_query_loop_stops_at_exception stdin w r w' :
  run_query_loop stdin w = (r, w') →
  es w' = es w ∧
  length (session_runs (since w w')) ≤ 5 ∧
  (∀ j text, session_runs (since w w') !! j = Some text →
     ∃ query cut, stdin j = Typed query cut ∧ text = [VStr query]) ∧
  ((r = Ok () ∧ handle_prompts stdin 0 5 w = (Ok (), w')) ∨
   (∃ k w1 e,
      k < 5 ∧
      handle_prompts stdin 0 k w = (Ok (), w1) ∧
      handle_prompt (stdin k) w1 = (Raise e, w') ∧
      r = left_with e)).
Proof.
  intros Hrun. unfold run_query_loop in Hrun.
  destruct (query_loop_outcome _ _ _ _ _ _ Hrun)
    as (Hes & _ & (log & Hcalls & Hlen & Hprefix) & Hcase).
  rewrite (since_app _ _ _ Hcalls). repeat split; auto.
Qed.

End Properties.

(** ** The claims on the small instance *)

Lemma demo_record_lines size :
  Forall2 (record_line (notebook := Demo.notebook size))
    Demo.data_file Demo.records.
Proof. repeat constructor; try reflexivity; eexists; reflexivity. Qed.

Lemma demo_titles :
  Forall (λ d : gmap string (value Z), is_Some (d !! "title"))
    (questions Demo.records).
Proof.
  repeat constructor; eexists; reflexivity.
Qed.

Lemma record_plain fields :
  Forall (λ kv : string * string, reserved kv.1 = false) fields →
  plain (num := Z) (Demo.record fields).
Proof.
  intros Hfields key x Hx. unfold Demo.record in Hx.
  apply elem_of_list_to_map_2, list_elem_of_fmap in Hx
    as ([k v] & [= -> ->] & Hin).
  rewrite Forall_forall in Hfields. exact (Hfields _ Hin).
Qed.

Lemma demo_plain : Forall (plain (num := Z)) (questions Demo.records).
Proof.
  repeat (constructor; [apply record_plain; by repeat constructor|]).
  constructor.
Qed.

Lemma demo_length_preserving size :
  length_preserving (notebook := Demo.notebook size).
Proof.
  intros text. exists (Demo.embed <$> text).
  split; [reflexivity|apply length_fmap].
Qed.

Lemma demo_embeds size b : embeds (notebook := Demo.notebook size) b.
Proof. apply length_preserving_embeds, demo_length_preserving. Qed.

Lemma demo_indexed :
  Demo.indexed =
  ingested (notebook := Demo.notebook 2) Demo.index_file
    (flushes 2 (questions Demo.records)) Demo.empty.
Proof.
  unfold Demo.indexed.
  rewrite (index_data_ingested (notebook := Demo.notebook 2)
             Demo.index_file Demo.data_file Demo.records Demo.empty).
  - reflexivity.
  - simpl. lia.
  - apply demo_record_lines.
  - apply demo_titles.
  - apply Forall_forall. intros b _. apply demo_embeds.
Qed.

Lemma demo_posts : es Demo.indexed !! "posts" = Some Demo.posts.
Proof.
  unfold Demo.posts. rewrite demo_indexed.
  rewrite (ingested_index (notebook := Demo.notebook 2))
    by (apply Forall_forall; intros b _; apply demo_embeds).
  reflexivity.
Qed.

Lemma demo_posts_vectors :
  Forall (λ doc : nat * gmap string (value Z),
            doc.2 !! "title_vector" = Some (of_vector (title_vector doc.2)))
    (documents Demo.posts).
Proof.
  eapply (ingested_vectors (notebook := Demo.notebook 2)).
  - apply Forall_forall. intros b _. apply demo_embeds.
  - rewrite <- demo_indexed. apply demo_posts.
Qed.

Lemma ingestion_persists_questions_witness :
  ∃ w' docs,
    index_data (notebook := Demo.notebook 2) Demo.index_file Demo.data_file
      Demo.empty = (Ok (), w') ∧
    contents w' "posts" = Some (strip Demo.index_file, docs) ∧
    length docs = length (questions Demo.records) ∧
    Forall (λ d, has_type "question" d = true ∧ has_type "answer" d = false)
      docs ∧
    Forall (Forall (λ request, ∃ d, request = VDict d ∧
                      has_type "question" d = true ∧
                      has_type "answer" d = false))
      (bulk_calls (since Demo.empty w')).
Proof.
  apply (ingestion_persists_questions (notebook := Demo.notebook 2)
           Demo.index_file Demo.data_file Demo.records Demo.empty).
  - simpl. lia.
  - apply demo_record_lines.
  - apply demo_titles.
  - apply demo_plain.
  - apply demo_length_preserving.
Defined.

Lemma batches_flushed_at_batch_size_witness :
  ∃ w' bs,
    index_data (notebook := Demo.notebook 2) Demo.index_file Demo.data_file
      Demo.empty = (Ok (), w') ∧
    bulk_calls (since Demo.empty w') =
      requests_of (notebook := Demo.notebook 2) <$> bs ∧
    length <$> bulk_calls (since Demo.empty w') = length <$> bs ∧
    concat bs = questions Demo.records ∧
    (∀ i b, bs !! i = Some b →
       0 < length b ≤ 2 ∧ (S i < length bs → length b = 2)) ∧
    (length (questions Demo.records) = 2 + 1 →
       length <$> bulk_calls (since Demo.empty w') = [2; 1]).
Proof.
  apply (batches_flushed_at_batch_size (notebook := Demo.notebook 2)
           Demo.index_file Demo.data_file Demo.records Demo.empty).
  - simpl. lia.
  - apply demo_record_lines.
  - apply demo_titles.
  - apply demo_length_preserving.
Defined.


Lemma no_empty_flush_witness :
  ∃ w',
    index_data (notebook := Demo.notebook 2) Demo.index_file Demo.data_file
      Demo.empty = (Ok (), w') ∧
    length <$> session_runs (since Demo.empty w') =
      length <$> bulk_calls (since Demo.empty w') ∧
    (∀ i requests,
       bulk_calls (since Demo.empty w') !! i = Some requests →
       0 < length requests ≤ 2 ∧
       (S i < length (bulk_calls (since Demo.empty w')) →
        length requests = 2)) ∧
    (∀ n, length (questions Demo.records) = n * 2 →
       length <$> bulk_calls (since Demo.empty w') = replicate n 2).
Proof.
  apply (proj2 (no_empty_flush (notebook := Demo.notebook 2))
           Demo.index_file Demo.data_file Demo.records Demo.empty).
  - simpl. lia.
  - apply demo_record_lines.
  - apply demo_titles.
  - apply demo_length_preserving.
Defined.

Lemma index_batch_attaches_vectors_witness :
  ∃ r w' requests,
    index_batch (notebook := Demo.notebook 2) (VDict <$> Demo.batch) Demo.indexed =
      (r, w') ∧
    since Demo.indexed w' =
      [session_run_call (title <$> Demo.batch); bulk_call requests] ∧
    length requests = length Demo.batch ∧
    (∀ i d, Demo.batch !! i = Some d →
       ∃ v,
         (Demo.embed <$> (title <$> Demo.batch)) !! i = Some v ∧
         requests !! i =
           Some (VDict (<["title_vector" := of_vector v]>
                          (<["_index" := VStr "posts"]>
                             (<["_op_type" := VStr "index"]> d))))) ∧
    (∀ embed,
       Demo.embed <$> (title <$> Demo.batch) =
         embed <$> (title <$> Demo.batch) →
       Forall (λ request, ∃ d, request = VDict d ∧
                 d !! "title_vector" = Some (of_vector (embed (title d))))
         requests) ∧
    (Forall plain Demo.batch →
       r = Ok () ∧
       ∃ docs,
         es w' !! "posts" =
           Some (EsIndex (mappings Demo.posts) (documents Demo.posts ++ docs)) ∧
         length docs = length Demo.batch ∧
         (∀ i d, Demo.batch !! i = Some d →
            ∃ v doc,
              (Demo.embed <$> (title <$> Demo.batch)) !! i = Some v ∧
              docs !! i = Some (next_id Demo.indexed + i, doc) ∧
              doc !! "title_vector" = Some (of_vector v) ∧
              doc !! "title" = d !! "title" ∧
              doc !! "body" = d !! "body") ∧
         (∀ embed,
            Demo.embed <$> (title <$> Demo.batch) =
              embed <$> (title <$> Demo.batch) →
            Forall (λ doc, doc.2 !! "title_vector" =
                           Some (of_vector (embed (title doc.2)))) docs)).
Proof.
  apply (index_batch_attaches_vectors (notebook := Demo.notebook 2)
           Demo.batch Demo.indexed Demo.posts
           (Demo.embed <$> (title <$> Demo.batch))).
  - repeat constructor; eexists; reflexivity.
  - reflexivity.
  - simpl. lia.
  - apply demo_posts.
Defined.

(** The batch of the witness is made of plain records. *)
Example batch_plain : Forall (plain (num := Z)) Demo.batch.
Proof.
  repeat (constructor; [apply record_plain; by repeat constructor|]).
  constructor.
Qed.

Lemma query_ranks_by_shifted_cosine_witness :
  ∃ w' hits rest,
    handle_query (scoring := Demo.scoring) (notebook := Demo.notebook 2)
      Demo.query Demo.indexed = (Ok (), w') ∧
    es w' = es Demo.indexed ∧
    since Demo.indexed w' =
      [session_run_call [VStr Demo.query];
       search_call "posts" 2 {["query_vector" := of_vector Demo.query_vector]};
       print_call EmptyString [];
       print_call "{} total hits."
         [VInt (Z.min 10000 (Z.of_nat (length (documents Demo.posts))))];
       print_call "embedding time: {:.2f} ms" [];
       print_call "search time: {:.2f} ms" []]
      ++ hit_log hits ∧
    length hits = 2 `min` length (documents Demo.posts) ∧
    hits ++ rest ≡ₚ
      scored (scoring := Demo.scoring) Demo.query_vector <$> documents Demo.posts ∧
    StronglySorted (before (scoring := Demo.scoring)) (hits ++ rest) ∧
    Forall (λ h, ∃ d v,
              (hit_id h, d) ∈ documents Demo.posts ∧
              d !! "title_vector" = Some (of_vector v) ∧
              hit_score h = (Demo.dot Demo.query_vector v + 1)%Z ∧
              hit_source h = filter (λ kv, kv.1 ∈ ["title"; "body"]) d)
      (hits ++ rest).
Proof.
  apply (query_ranks_by_shifted_cosine (scoring := Demo.scoring)
           (notebook := Demo.notebook 2) Demo.query Demo.indexed
           Demo.posts [Demo.query_vector] Demo.query_vector).
  - intros x y. simpl. rewrite !Z.leb_le. lia.
  - intros x y z. simpl. rewrite !Z.leb_le. lia.
  - apply demo_posts.
  - apply demo_posts_vectors.
  - reflexivity.
  - reflexivity.
Defined.






(** ** The notebook run on the small instance *)

Example strip_line :
  strip ("  {mappings} " +:+ Demo.newline) = "{mappings}".
Proof. reflexivity. Qed.

(** Three questions in batches of two: two runs of the provider, two
    bulk writes of two and one requests, three documents, no answer. *)
Example indexed_batches :
  (session_runs (calls Demo.indexed),
   length <$> bulk_calls (calls Demo.indexed),
   (λ ix, title <$> (documents ix).*2) <$> es Demo.indexed !! "posts") =
  ([[VStr "CUDA performance"; VStr "C# closures"]; [VStr "HTML layout"]],
   [2; 1],
   Some [VStr "CUDA performance"; VStr "C# closures"; VStr "HTML layout"]).
Proof. vm_compute. reflexivity. Qed.

(** The line that is not JSON ends the run before anything is written. *)
Example broken_run :
  let run :=
    index_data (notebook := Demo.notebook 2) Demo.index_file
      Demo.broken_file Demo.empty in
  (run.1, contents run.2 "posts", session_runs (calls run.2)) =
  (Raise JSONDecodeError, Some ("{mappings}", []), []).
Proof. vm_compute. reflexivity. Qed.

(** The provider is down for the first batch: the second is never sent. *)
Example timeout_run :
  let run :=
    index_data (notebook := Demo.notebook_flaky) Demo.index_file
      Demo.timeout_file Demo.empty in
  (run.1, contents run.2 "posts", session_runs (calls run.2),
   bulk_calls (calls run.2)) =
  (Raise SessionError, Some ("{mappings}", []), [[VStr "timeout"]], []).
Proof. vm_compute. reflexivity. Qed.

(** The query on the three questions: the first two of the ranking,
    with their shifted scores. *)
Example query_hits :
  match
    (search (scoring := Demo.scoring) "posts" 2
       (script_source (scoring := Demo.scoring))
       {["query_vector" := of_vector Demo.query_vector]} ["title"; "body"]
       Demo.indexed).1
  with
  | Ok response => (λ h, (hit_id h, hit_score h)) <$> hits_hits response
  | Raise _ => []
  end = [(0, 258%Z); (2, 178%Z)].
Proof. vm_compute. reflexivity. Qed.

(** ** The further properties on the small instance *)

Lemma index_data_forgets_old_index_witness :
  index_data (notebook := Demo.notebook 2) Demo.index_file Demo.data_file
    Demo.empty =
  index_data (notebook := Demo.notebook 2) Demo.index_file Demo.data_file
    Demo.stale.
Proof.
  apply (index_data_forgets_old_index (notebook := Demo.notebook 2)
           Demo.index_file Demo.data_file Demo.empty Demo.stale).
  - reflexivity.
  - reflexivity.
  - reflexivity.
Defined.

Lemma no_question_no_flush_witness :
  ∃ w',
    index_data (notebook := Demo.notebook 0) Demo.index_file
      Demo.answers_file Demo.empty = (Ok (), w') ∧
    es w' = <["posts" := EsIndex (strip Demo.index_file) []]> (es Demo.empty) ∧
    since Demo.empty w' =
      [print_call "Creating the 'posts' index." [];
       indices_delete_call "posts";
       indices_create_call "posts" (strip Demo.index_file);
       indices_refresh_call "posts";
       print_call "Done indexing." []].
Proof.
  apply (no_question_no_flush (notebook := Demo.notebook 0)
           Demo.index_file Demo.answers_file [Demo.record Demo.reply]
           Demo.empty).
  - repeat constructor; try reflexivity; eexists; reflexivity.
  - reflexivity.
Defined.

Lemma zero_batch_size_raises_witness :
  index_data (notebook := Demo.notebook 0) Demo.index_file
    (Demo.answers_file ++ Demo.line Demo.cuda :: [Demo.line Demo.layout])
    Demo.empty =
  (Raise ZeroDivisionError,
   recreated (notebook := Demo.notebook 0) Demo.index_file Demo.empty).
Proof.
  apply (zero_batch_size_raises (notebook := Demo.notebook 0)
           Demo.index_file Demo.answers_file (Demo.line Demo.cuda)
           [Demo.line Demo.layout] [Demo.record Demo.reply]
           (Demo.record Demo.cuda) Demo.empty).
  - reflexivity.
  - repeat constructor; try reflexivity; eexists; reflexivity.
  - reflexivity.
  - split; [reflexivity|eexists; reflexivity].
  - reflexivity.
Defined.

Lemma questions_record_lines size :
  Forall2 (record_line (notebook := Demo.notebook size))
    Demo.questions_file Demo.questions_records.
Proof. repeat constructor; try reflexivity; eexists; reflexivity. Qed.

Lemma only_questions_count_witness :
  index_data (notebook := Demo.notebook 2) Demo.index_file Demo.data_file
    Demo.empty =
  index_data (notebook := Demo.notebook 2) Demo.index_file
    Demo.questions_file Demo.empty.
Proof.
  apply (only_questions_count (notebook := Demo.notebook 2) Demo.index_file
           Demo.data_file Demo.questions_file Demo.records
           Demo.questions_records Demo.empty).
  - simpl. lia.
  - apply demo_record_lines.
  - apply questions_record_lines.
  - reflexivity.
Defined.

Lemma index_batch_all_or_nothing_witness :
  (bulk_calls (since Demo.indexed Demo.batch_outcome.2) = [] ∧
   Demo.batch_outcome.1 ≠ Ok ()) ∨
  (∃ requests,
     bulk_calls (since Demo.indexed Demo.batch_outcome.2) = [requests] ∧
     length requests = length (@VDict Z <$> Demo.batch) ∧
     Forall (index_request (notebook := Demo.notebook 2)) requests ∧
     ∀ i request, requests !! i = Some request →
       ∃ d v, (@VDict Z <$> Demo.batch) !! i = Some (VDict d) ∧
              request = VDict (<["title_vector" := of_vector v]>
                                 (<["_index" := VStr "posts"]>
                                    (<["_op_type" := VStr "index"]> d)))).
Proof.
  apply (index_batch_all_or_nothing (notebook := Demo.notebook 2)
           (VDict <$> Demo.batch) Demo.indexed).
  apply surjective_pairing.
Defined.

Lemma missing_title_raises_witness :
  index_batch (notebook := Demo.notebook 2)
    (VDict <$> [Demo.record Demo.cuda; Demo.record Demo.reply]) Demo.indexed =
  (Raise (KeyError "title"), Demo.indexed).
Proof.
  apply (missing_title_raises (notebook := Demo.notebook 2)
           [Demo.record Demo.cuda; Demo.record Demo.reply]
           (Demo.record Demo.reply) Demo.indexed).
  - apply list_elem_of_further, list_elem_of_here.
  - reflexivity.
Defined.

Lemma index_data_keeps_other_indices_witness :
  es (index_data (notebook := Demo.notebook 2) Demo.index_file Demo.data_file
        Demo.shared).2 !! "users" =
  es Demo.shared !! "users".
Proof.
  apply (index_data_keeps_other_indices (notebook := Demo.notebook 2)
           Demo.index_file Demo.data_file Demo.shared
           (index_data (notebook := Demo.notebook 2) Demo.index_file
              Demo.data_file Demo.shared).1).
  - apply surjective_pairing.
  - discriminate.
Defined.

(** The index of another name holds what it held, next to the three
    questions of the target index. *)
Example shared_run :
  let w := (index_data (notebook := Demo.notebook 2) Demo.index_file
              Demo.data_file Demo.shared).2 in
  (es w !! "users", (λ ix, length (documents ix)) <$> es w !! "posts") =
  (Some (EsIndex "{users}" [(0, Demo.record Demo.reply)]), Some 3).
Proof. vm_compute. reflexivity. Qed.


Lemma ingestion_calls_in_order_witness :
  ∃ w' bs,
    index_data (notebook := Demo.notebook 2) Demo.index_file Demo.data_file
      Demo.empty = (Ok (), w') ∧
    concat bs = questions Demo.records ∧
    since Demo.empty w' =
      [print_call "Creating the 'posts' index." [];
       indices_delete_call "posts";
       indices_create_call "posts" (strip Demo.index_file)]
      ++ flush_log (notebook := Demo.notebook 2) 0 bs
      ++ [indices_refresh_call "posts"; print_call "Done indexing." []].
Proof.
  apply (ingestion_calls_in_order (notebook := Demo.notebook 2)
           Demo.index_file Demo.data_file Demo.records Demo.empty).
  - simpl. lia.
  - apply demo_record_lines.
  - apply demo_titles.
  - apply demo_length_preserving.
Defined.

Lemma progress_lines_count_questions_witness :
  ∃ w' n,
    index_data (notebook := Demo.notebook 2) Demo.index_file Demo.data_file
      Demo.empty = (Ok (), w') ∧
    progress (since Demo.empty w') =
      (λ k, [VInt (Z.of_nat (Nat.min (k * 2)
                               (length (questions Demo.records))))])
      <$> seq 1 n ∧
    length (questions Demo.records) ≤ n * 2 ∧
    (0 < n → (n - 1) * 2 < length (questions Demo.records)).
Proof.
  apply (progress_lines_count_questions (notebook := Demo.notebook 2)
           Demo.index_file Demo.data_file Demo.records Demo.empty).
  - simpl. lia.
  - apply demo_record_lines.
  - apply demo_titles.
  - apply demo_length_preserving.
Defined.

Lemma index_data_ignores_outer_space_witness :
  index_data (notebook := Demo.notebook 2)
    (Demo.no_break_space +:+ Demo.index_file +:+ Demo.line_separator)
    [Demo.line Demo.cuda; Demo.line Demo.closures; Demo.line Demo.layout]
    Demo.empty =
  index_data (notebook := Demo.notebook 2) "{mappings}" Demo.questions_file
    Demo.empty.
Proof.
  apply (index_data_ignores_outer_space (notebook := Demo.notebook 2)
           (Demo.no_break_space +:+ Demo.index_file +:+ Demo.line_separator)
           "{mappings}"
           [Demo.line Demo.cuda; Demo.line Demo.closures;
            Demo.line Demo.layout]
           Demo.questions_file Demo.empty).
  - reflexivity.
  - repeat constructor; reflexivity.
Defined.

(** [strip] removes white space of more than one byte as well, and
    only at the ends. *)
Example strip_unicode :
  strip (Demo.no_break_space +:+ " a" +:+ Demo.line_separator +:+ "b "
         +:+ Demo.line_separator +:+ Demo.newline) =
  "a" +:+ Demo.line_separator +:+ "b".
Proof. reflexivity. Qed.

Lemma handle_query_calls_witness :
  es Demo.query_outcome.2 = es Demo.indexed ∧
  next_id Demo.query_outcome.2 = next_id Demo.indexed ∧
  ∃ log,
    since Demo.indexed Demo.query_outcome.2 =
      session_run_call [VStr Demo.query] :: log ∧
    ((∃ e, Demo.query_outcome.1 = Raise e ∧
        (log = [] ∨ ∃ params, log = [search_call "posts" 2 params])) ∨
     (Demo.query_outcome.1 = Ok () ∧ ∃ params prints,
        log = search_call "posts" 2 params :: prints ∧
        Forall (λ e, ∃ fmt args, e = print_call fmt args) prints)).
Proof.
  apply (handle_query_calls (scoring := Demo.scoring)
           (notebook := Demo.notebook 2) Demo.query Demo.indexed).
  apply surjective_pairing.
Defined.

Lemma query_fails_before_search_witness :
  handle_query (scoring := Demo.scoring) (notebook := Demo.notebook_flaky)
    "timeout" Demo.indexed =
  (Raise SessionError, emit (session_run_call [VStr "timeout"]) Demo.indexed).
Proof.
  apply (query_fails_before_search (scoring := Demo.scoring)
           (notebook := Demo.notebook_flaky) "timeout" Demo.indexed
           SessionError).
  left. reflexivity.
Defined.

Lemma query_on_unfit_index_witness :
  handle_query (scoring := Demo.scoring) (notebook := Demo.notebook 2)
    Demo.query Demo.empty =
  (Raise NotFoundError,
   emit (search_call "posts" 2
           {["query_vector" := of_vector Demo.query_vector]})
     (emit (session_run_call [VStr Demo.query]) Demo.empty)).
Proof.
  apply (query_on_unfit_index (scoring := Demo.scoring)
           (notebook := Demo.notebook 2) Demo.query Demo.empty
           [Demo.query_vector] Demo.query_vector NotFoundError).
  - reflexivity.
  - reflexivity.
  - left. split; reflexivity.
Defined.

Lemma run_query_loop_stops_at_exception_witness :
  es Demo.closing_outcome.2 = es Demo.indexed ∧
  length (session_runs (since Demo.indexed Demo.closing_outcome.2)) ≤ 5 ∧
  (∀ j text,
     session_runs (since Demo.indexed Demo.closing_outcome.2) !! j = Some text →
     ∃ query cut, Demo.closing_stdin j = Typed query cut ∧ text = [VStr query]) ∧
  ((Demo.closing_outcome.1 = Ok () ∧
    handle_prompts (scoring := Demo.scoring) (notebook := Demo.notebook 2)
      Demo.closing_stdin 0 5 Demo.indexed = (Ok (), Demo.closing_outcome.2)) ∨
   (∃ k w1 e,
      k < 5 ∧
      handle_prompts (scoring := Demo.scoring) (notebook := Demo.notebook 2)
        Demo.closing_stdin 0 k Demo.indexed = (Ok (), w1) ∧
      handle_prompt (scoring := Demo.scoring) (notebook := Demo.notebook 2)
        (Demo.closing_stdin k) w1 = (Raise e, Demo.closing_outcome.2) ∧
      Demo.closing_outcome.1 = left_with e)).
Proof.
  apply (run_query_loop_stops_at_exception (scoring := Demo.scoring)
           (notebook := Demo.notebook 2) Demo.closing_stdin Demo.indexed).
  apply surjective_pairing.
Defined.

(** The query loop on the small instance.  The query is handled; at
    the second prompt it is typed again and interrupted after the
    search was sent: the loop returns, nothing is printed for the
    second query and the third prompt is not shown. *)
Example loop_run :
  (Demo.loop_outcome.1,
   session_runs (since Demo.indexed Demo.loop_outcome.2),
   length (search_calls (since Demo.indexed Demo.loop_outcome.2)),
   since Demo.query_outcome.2 Demo.loop_outcome.2) =
  (Ok (), [[VStr "cuda programming"]; [VStr "cuda programming"]], 2,
   [session_run_call [VStr "cuda programming"];
    search_call "posts" 2 {["query_vector" := of_vector Demo.query_vector]}]).
Proof. vm_compute. reflexivity. Qed.

(** When the input ends after the first query, the EOFError of [input]
    leaves [run_query_loop], with the world as the first query left
    it. *)
Example closing_run :
  Demo.closing_outcome = (Raise EOFError, Demo.query_outcome.2).
Proof. vm_compute. reflexivity. Qed.

(** The progress lines of the three questions in batches of two. *)
Example indexed_progress :
  progress (calls Demo.indexed) = [[VInt 2]; [VInt 3]].
Proof. vm_compute. reflexivity. Qed.
